(** * Veo video generator: the generation pipeline and the App state machine

    A shallow embedding of [services/geminiService.ts]
    ([fileToGenerativePart], [generateVideoFromImage]), of the handlers of
    [App.tsx] ([checkApiKey], [handleImageChange], [handleSubmit],
    [resetState], the [ApiKeySelector] callback) and of [types.ts].

    The remote video API, the credential provider, [fetch] and the browser's
    object URLs are external: they are collected in a record [Env] of
    oracles.  Asynchronous code is run sequentially; a run that is still
    waiting in the poll loop when the fuel is spent is [Pending]. *)

From Stdlib Require Import String Ascii List ZArith Bool Arith Lia.
Import ListNotations.
Local Open Scope string_scope.

(* ===================================================================== *)
(** ** JavaScript strings and truthiness *)

(** [hay.includes(needle)]. *)
Fixpoint includes (hay needle : string) : bool :=
  if String.prefix needle hay then true
  else match hay with
       | EmptyString => false
       | String _ rest => includes rest needle
       end.

(** [s.split(sep)] for a one-character separator. *)
Fixpoint split (sep : ascii) (s : string) : list string :=
  match s with
  | EmptyString => [EmptyString]
  | String c rest =>
      if Ascii.eqb c sep then EmptyString :: split sep rest
      else match split sep rest with
           | [] => [String c EmptyString]
           | h :: t => String c h :: t
           end
  end.

(** Truthiness of a string: only the empty string is falsy. *)
Definition truthy (s : string) : bool :=
  match s with EmptyString => false | String _ _ => true end.

(** Truthiness of a possibly undefined (or null) string. *)
Definition truthy_opt (o : option string) : bool :=
  match o with None => false | Some s => truthy s end.

(** Truthiness of [boolean | null]. *)
Definition truthy_flag (o : option bool) : bool :=
  match o with Some true => true | _ => false end.

(** A value interpolated in a template literal: [undefined] prints as such. *)
Definition template (o : option string) : string :=
  match o with None => "undefined" | Some s => s end.

Definition is_some {A : Type} (o : option A) : bool :=
  match o with None => false | Some _ => true end.

(* ===================================================================== *)
(** ** types.ts *)

Inductive AspectRatio := ar_16_9 | ar_9_16.

Inductive GenerationState :=
  gs_idle | gs_loading | gs_polling | gs_success | gs_error | gs_selecting_key.

Definition GenerationState_eqb (a b : GenerationState) : bool :=
  match a, b with
  | gs_idle, gs_idle | gs_loading, gs_loading | gs_polling, gs_polling
  | gs_success, gs_success | gs_error, gs_error
  | gs_selecting_key, gs_selecting_key => true
  | _, _ => false
  end.

(* ===================================================================== *)
(** ** Values exchanged with the outside *)

(** A thrown value; [message] may be undefined. *)
Record JsError := { message : option string }.

(** [new Error(m)]. *)
Definition Error (m : string) : JsError := {| message := Some m |}.

(** A [File]: its MIME type and what a [FileReader] yields for it with
    [readAsDataURL] ([None] when [reader.result] is not a string). *)
Record File := { file_type : string; file_dataURL : option string }.

Record InlineData := { data : option string; mimeType : string }.

Record Image := { imageBytes : string; image_mimeType : string }.

Record GenerateVideosConfig :=
  { numberOfVideos : Z; resolution : string; cfg_aspectRatio : AspectRatio }.

Record GenerateVideosParameters :=
  { model : string; prompt : string; image : Image;
    config : GenerateVideosConfig }.

Record Video := { uri : option string }.
Record GeneratedVideo := { video : option Video }.
Record GenerateVideosResponse :=
  { generatedVideos : option (list GeneratedVideo) }.

(** The error payload of an operation; only its [message] is read. *)
Record OperationError := { err_message : option string }.

(** The operation handle.  [done] is optional in the API: undefined is
    falsy, modelled as [false]. *)
Record Operation :=
  { name : string; done : bool; op_error : option OperationError;
    response : option GenerateVideosResponse }.

Definition Blob := string.

(** What the pipeline reads of a [fetch] response. *)
Record Response :=
  { ok : bool; status : Z; statusText : string; text : string; blob : Blob }.

(** The outside world of one pipeline run.  [getVideosOperation k op] is the
    answer to the status query number [k] (from 0) of the run, asked with
    the handle [op]. *)
Record Env :=
  { API_KEY : option string;
    generateVideos : GenerateVideosParameters -> JsError + Operation;
    getVideosOperation : nat -> Operation -> JsError + Operation;
    fetch : string -> JsError + Response;
    createObjectURL : Blob -> string }.

(** [window.aistudio]: each call resolves or rejects. *)
Record Aistudio :=
  { hasSelectedApiKey : JsError + bool; openSelectKey : JsError + unit }.

(* ===================================================================== *)
(** ** The App component's state (the [useState] cells of App.tsx) *)

Record AppState :=
  { imageFile : option File;
    imagePreview : option string;
    script : string;
    aspectRatio : AspectRatio;
    generationState : GenerationState;
    videoUrl : option string;
    error : option string;
    loadingMessage : string;
    apiKeySelected : option bool }.

(** The initial values given to [useState]. *)
Definition initialState : AppState :=
  {| imageFile := None; imagePreview := None; script := "";
     aspectRatio := ar_16_9; generationState := gs_idle; videoUrl := None;
     error := None; loadingMessage := ""; apiKeySelected := None |}.

Definition setImageFile (v : option File) (s : AppState) : AppState :=
  {| imageFile := v; imagePreview := imagePreview s; script := script s;
     aspectRatio := aspectRatio s; generationState := generationState s;
     videoUrl := videoUrl s; error := error s;
     loadingMessage := loadingMessage s; apiKeySelected := apiKeySelected s |}.

Definition setImagePreview (v : option string) (s : AppState) : AppState :=
  {| imageFile := imageFile s; imagePreview := v; script := script s;
     aspectRatio := aspectRatio s; generationState := generationState s;
     videoUrl := videoUrl s; error := error s;
     loadingMessage := loadingMessage s; apiKeySelected := apiKeySelected s |}.

Definition setScript (v : string) (s : AppState) : AppState :=
  {| imageFile := imageFile s; imagePreview := imagePreview s; script := v;
     aspectRatio := aspectRatio s; generationState := generationState s;
     videoUrl := videoUrl s; error := error s;
     loadingMessage := loadingMessage s; apiKeySelected := apiKeySelected s |}.

Definition setAspectRatio (v : AspectRatio) (s : AppState) : AppState :=
  {| imageFile := imageFile s; imagePreview := imagePreview s;
     script := script s; aspectRatio := v;
     generationState := generationState s; videoUrl := videoUrl s;
     error := error s; loadingMessage := loadingMessage s;
     apiKeySelected := apiKeySelected s |}.

Definition setGenerationState (v : GenerationState) (s : AppState) : AppState :=
  {| imageFile := imageFile s; imagePreview := imagePreview s;
     script := script s; aspectRatio := aspectRatio s; generationState := v;
     videoUrl := videoUrl s; error := error s;
     loadingMessage := loadingMessage s; apiKeySelected := apiKeySelected s |}.

Definition setVideoUrl (v : option string) (s : AppState) : AppState :=
  {| imageFile := imageFile s; imagePreview := imagePreview s;
     script := script s; aspectRatio := aspectRatio s;
     generationState := generationState s; videoUrl := v; error := error s;
     loadingMessage := loadingMessage s; apiKeySelected := apiKeySelected s |}.

Definition setError (v : option string) (s : AppState) : AppState :=
  {| imageFile := imageFile s; imagePreview := imagePreview s;
     script := script s; aspectRatio := aspectRatio s;
     generationState := generationState s; videoUrl := videoUrl s;
     error := v; loadingMessage := loadingMessage s;
     apiKeySelected := apiKeySelected s |}.

Definition setLoadingMessage (v : string) (s : AppState) : AppState :=
  {| imageFile := imageFile s; imagePreview := imagePreview s;
     script := script s; aspectRatio := aspectRatio s;
     generationState := generationState s; videoUrl := videoUrl s;
     error := error s; loadingMessage := v;
     apiKeySelected := apiKeySelected s |}.

Definition setApiKeySelected (v : option bool) (s : AppState) : AppState :=
  {| imageFile := imageFile s; imagePreview := imagePreview s;
     script := script s; aspectRatio := aspectRatio s;
     generationState := generationState s; videoUrl := videoUrl s;
     error := error s; loadingMessage := loadingMessage s;
     apiKeySelected := v |}.

(* ===================================================================== *)
(** ** Runs: state, log of effects, outcome *)

(** What a run does to the outside, in order. *)
Inductive Event :=
| EvProgress (msg : string)                       (* onProgress(msg) *)
| EvSetTimeout (ms : Z)                           (* the awaited timer *)
| EvGenerateVideos (req : GenerateVideosParameters)
| EvGetVideosOperation (op : Operation)
| EvFetch (url : string)
| EvSetGenerationState (g : GenerationState)
| EvHasSelectedApiKey
| EvOpenSelectKey.

Record Sys := { ui : AppState; log : list Event }.

Inductive Outcome (A : Type) :=
| Returned (a : A)
| Threw (e : JsError)
| Pending.
Arguments Returned {A} a.
Arguments Threw {A} e.
Arguments Pending {A}.

(** An asynchronous computation over the App's state and the log. *)
Definition M (A : Type) : Type := Sys -> Sys * Outcome A.

Definition ret {A : Type} (a : A) : M A := fun s => (s, Returned a).

Definition throw {A : Type} (e : JsError) : M A := fun s => (s, Threw e).

Definition pending {A : Type} : M A := fun s => (s, Pending).

Definition bind {A B : Type} (c : M A) (k : A -> M B) : M B :=
  fun s =>
    match c s with
    | (s', Returned a) => k a s'
    | (s', Threw e) => (s', Threw e)
    | (s', Pending) => (s', Pending)
    end.

Declare Scope async_scope.
Delimit Scope async_scope with async.
Notation "x <- c ;; k" := (bind c (fun x => k))
  (at level 61, c at next level, right associativity) : async_scope.
Notation "c ;; k" := (bind c (fun _ => k))
  (at level 61, right associativity) : async_scope.
Local Open Scope async_scope.

Definition emit (ev : Event) : M unit :=
  fun s => ({| ui := ui s; log := log s ++ [ev] |}, Returned tt).

(** A [useState] setter. *)
Definition update (f : AppState -> AppState) : M unit :=
  fun s => ({| ui := f (ui s); log := log s |}, Returned tt).

(** An awaited call that resolves or rejects. *)
Definition await {A : Type} (r : JsError + A) : M A :=
  match r with inl e => throw e | inr a => ret a end.

(** [setGenerationState(g)], recorded in the log. *)
Definition enter (g : GenerationState) : M unit :=
  emit (EvSetGenerationState g) ;; update (setGenerationState g).

(* ===================================================================== *)
(** ** services/geminiService.ts *)

(** [fileToGenerativePart]: the part of the data URL after the first comma,
    undefined when there is no comma, the empty string when the reader's
    result is not a string. *)
Definition fileToGenerativePart (file : File) : InlineData :=
  {| data := match file_dataURL file with
             | Some result => nth_error (split "," result) 1
             | None => Some ""
             end;
     mimeType := file_type file |}.

(** The argument of [ai.models.generateVideos]. *)
Definition videoRequest (prompt bytes mime : string) (aspectRatio : AspectRatio)
  : GenerateVideosParameters :=
  {| model := "veo-3.1-fast-generate-preview";
     prompt := prompt;
     image := {| imageBytes := bytes; image_mimeType := mime |};
     config := {| numberOfVideos := 1; resolution := "720p";
                  cfg_aspectRatio := aspectRatio |} |}.

Section Pipeline.

Variable env : Env.
(** The progress callback; it is a state setter of the caller. *)
Variable onProgress : string -> AppState -> AppState.

Definition progress (msg : string) : M unit :=
  emit (EvProgress msg) ;; update (onProgress msg).

(** [await new Promise(resolve => setTimeout(resolve, ms))]. *)
Definition sleep (ms : Z) : M unit := emit (EvSetTimeout ms).

(** The [while (!operation.done)] loop.  [k] counts the status queries
    made so far; each iteration takes one unit of fuel. *)
Fixpoint pollLoop (fuel : nat) (k : nat) (operation : Operation)
  : M Operation :=
  if done operation then ret operation
  else match fuel with
       | O => pending
       | S fuel' =>
           sleep 10000 ;;
           progress "Still processing... checking status." ;;
           emit (EvGetVideosOperation operation) ;;
           match getVideosOperation env k operation with
           | inr operation' => pollLoop fuel' (S k) operation'
           | inl e =>
               if match message e with
                  | Some m => includes m "Requested entity was not found"
                  | None => false
                  end
               then throw (Error "API_KEY_ERROR")
               else throw e
           end
       end.

(** [operation.response?.generatedVideos?.[0]?.video?.uri]. *)
Definition downloadLinkOf (operation : Operation) : option string :=
  match response operation with
  | None => None
  | Some r =>
      match generatedVideos r with
      | None => None
      | Some vs =>
          match nth_error vs 0 with
          | None => None
          | Some gv =>
              match video gv with
              | None => None
              | Some v => uri v
              end
          end
      end
  end.

(** The end of [generateVideoFromImage], after the loop: completion
    check, result reference, download. *)
Definition deliver (operation : Operation) : M string :=
  match op_error operation with
  | Some err =>
      throw (Error ("Video generation failed: "
                    ++ template (err_message err)))
  | None =>
      progress "Finalizing video..." ;;
      match downloadLinkOf operation with
      | None | Some EmptyString =>
          throw (Error "Could not retrieve video download link.")
      | Some downloadLink =>
          let url := downloadLink ++ "&key=" ++ template (API_KEY env) in
          emit (EvFetch url) ;;
          response <- await (fetch env url) ;;
          if negb (ok response) then
            let errorText := text response in
            if includes errorText "API key not valid"
            then throw (Error "API_KEY_ERROR")
            else throw (Error ("Failed to download video: "
                               ++ statusText response))
          else ret (createObjectURL env (blob response))
      end
  end.

Definition generateVideoFromImage (fuel : nat) (prompt : string)
    (imageFile : File) (aspectRatio : AspectRatio) : M string :=
  progress "Converting image..." ;;
  let imagePart := fileToGenerativePart imageFile in
  match data imagePart with
  | None | Some EmptyString =>
      throw (Error "Failed to convert image to base64.")
  | Some bytes =>
      progress "Starting video generation..." ;;
      let req := videoRequest prompt bytes (mimeType imagePart) aspectRatio in
      emit (EvGenerateVideos req) ;;
      operation <- await (generateVideos env req) ;;
      progress "Processing your video... this may take a few minutes." ;;
      operation <- pollLoop fuel 0 operation ;;
      deliver operation
  end.

End Pipeline.

(* ===================================================================== *)
(** ** App.tsx *)

(** [checkApiKey], run once when the component mounts. *)
Definition checkApiKey (studio : Aistudio) : M unit :=
  emit EvHasSelectedApiKey ;;
  match hasSelectedApiKey studio with
  | inr hasKey =>
      update (setApiKeySelected (Some hasKey)) ;;
      if negb hasKey then enter gs_selecting_key else enter gs_idle
  | inl _ =>
      update (setApiKeySelected (Some false)) ;;
      enter gs_selecting_key
  end.

(** [handleImageChange]; [file] is [e.target.files?.[0]].  The preview is
    set when the reader has finished, after the handler's own updates. *)
Definition handleImageChange (file : option File) : M unit :=
  match file with
  | Some f =>
      update (setImageFile (Some f)) ;;
      update (setError None) ;;
      update (setImagePreview (file_dataURL f))
  | None => ret tt
  end.

(** The message compared with [===] in the catch clause. *)
Definition is_API_KEY_ERROR (e : JsError) : bool :=
  match message e with
  | Some m => String.eqb m "API_KEY_ERROR"
  | None => false
  end.

(** [e.message || 'An unknown error occurred.'] *)
Definition messageOr (e : JsError) : string :=
  match message e with
  | Some (String c m) => String c m
  | _ => "An unknown error occurred."
  end.

(** [try { body } catch (e) { handler e } finally { finalizer }] around an
    awaited body: nothing runs while the body is pending. *)
Definition try_catch_finally (body : M unit) (handler : JsError -> M unit)
    (finalizer : M unit) : M unit :=
  fun s =>
    match body s with
    | (s1, Returned _) => finalizer s1
    | (s1, Threw e) =>
        match handler e s1 with
        | (s2, Returned _) => finalizer s2
        | (s2, Threw e') => (finalizer ;; throw e') s2
        | (s2, Pending) => (s2, Pending)
        end
    | (s1, Pending) => (s1, Pending)
    end.

Definition handleSubmit (env : Env) (fuel : nat) : M unit :=
  fun s =>
    let st := ui s in
    match imageFile st with
    | None => (s, Returned tt)
    | Some file =>
        if negb (truthy (script st)) || negb (truthy_flag (apiKeySelected st))
        then (s, Returned tt)
        else
          (enter gs_loading ;;
           update (setError None) ;;
           update (setVideoUrl None) ;;
           try_catch_finally
             (url <- generateVideoFromImage env setLoadingMessage fuel
                       (script st) file (aspectRatio st) ;;
              update (setVideoUrl (Some url)) ;;
              enter gs_success)
             (fun e =>
                if is_API_KEY_ERROR e then
                  update (setError (Some "Your API Key is invalid or missing permissions. Please select a valid key.")) ;;
                  update (setApiKeySelected (Some false)) ;;
                  enter gs_selecting_key
                else
                  update (setError (Some (messageOr e))) ;;
                  enter gs_error)
             (update (setLoadingMessage ""))) s
    end.

Definition resetState : M unit :=
  fun s =>
    (update (setImageFile None) ;;
     update (setImagePreview None) ;;
     update (setScript "") ;;
     update (setVideoUrl None) ;;
     update (setError None) ;;
     enter (if truthy_flag (apiKeySelected (ui s))
            then gs_idle else gs_selecting_key)) s.

(** The [onKeySelected] callback that [App] passes to [ApiKeySelector]. *)
Definition onKeySelected : M unit :=
  update (setApiKeySelected (Some true)) ;; enter gs_idle.

(** [handleSelectKey] of [ApiKeySelector]: a rejection is logged to the
    console and swallowed. *)
Definition handleSelectKey (studio : Aistudio) : M unit :=
  emit EvOpenSelectKey ;;
  match openSelectKey studio with
  | inr _ => onKeySelected
  | inl _ => ret tt
  end.

(** Derived values of a render. *)
Definition isGenerating (st : AppState) : bool :=
  GenerationState_eqb (generationState st) gs_loading
  || GenerationState_eqb (generationState st) gs_polling.

Definition isFormDisabled (st : AppState) : bool :=
  isGenerating st || negb (truthy_flag (apiKeySelected st)).

(** The [disabled] attribute of the submit button. *)
Definition submitDisabled (st : AppState) : bool :=
  negb (is_some (imageFile st)) || negb (truthy (script st))
  || isGenerating st.

(** The form, and the submit button in it, is rendered only under
    [apiKeySelected &&]. *)
Definition formRendered (st : AppState) : bool :=
  truthy_flag (apiKeySelected st).

(** The [ApiKeySelector] is rendered under [apiKeySelected === false]. *)
Definition selectorRendered (st : AppState) : bool :=
  match apiKeySelected st with Some false => true | _ => false end.

(** The submit button can be activated: it is on the page and enabled. *)
Definition submitClickable (st : AppState) : bool :=
  formRendered st && negb (submitDisabled st).

(** The two reset buttons ("Create Another Video", "Try Again"). *)
Definition resetRendered (st : AppState) : bool :=
  formRendered st
  && ((GenerationState_eqb (generationState st) gs_success
       && truthy_opt (videoUrl st))
      || (GenerationState_eqb (generationState st) gs_error
          && truthy_opt (error st))).

(** One user or lifecycle action on the page, with the outside it meets. *)
Inductive Action :=
| ActMount (studio : Aistudio)
| ActImageChange (file : option File)
| ActSetScript (v : string)
| ActSetAspectRatio (v : AspectRatio)
| ActSubmit (env : Env) (fuel : nat)
| ActReset
| ActSelectKey (studio : Aistudio).

Definition act (a : Action) : M unit :=
  match a with
  | ActMount studio => checkApiKey studio
  | ActImageChange file => handleImageChange file
  | ActSetScript v => update (setScript v)
  | ActSetAspectRatio v => update (setAspectRatio v)
  | ActSubmit env fuel => handleSubmit env fuel
  | ActReset => resetState
  | ActSelectKey studio => handleSelectKey studio
  end.

Definition runActions (l : list Action) (s : Sys) : Sys :=
  fold_left (fun s a => fst (act a s)) l s.

(** A freshly mounted page showing [st], nothing logged yet. *)
Definition start (st : AppState) : Sys := {| ui := st; log := [] |}.


(** The status queries of a log, in order. *)
Fixpoint queriesOf (l : list Event) : list Operation :=
  match l with
  | [] => []
  | EvGetVideosOperation op :: l' => op :: queriesOf l'
  | _ :: l' => queriesOf l'
  end.

(** Events of the service ([generateVideoFromImage]) as opposed to those of
    the component. *)
Definition isServiceEvent (ev : Event) : bool :=
  match ev with
  | EvProgress _ | EvSetTimeout _ | EvGenerateVideos _
  | EvGetVideosOperation _ | EvFetch _ => true
  | EvSetGenerationState _ | EvHasSelectedApiKey | EvOpenSelectKey => false
  end.



(* ===================================================================== *)
(** ** Describing runs *)

(** The state after some calls of the progress callback. *)
Inductive Progressed (onProgress : string -> AppState -> AppState)
  : AppState -> AppState -> Prop :=
| Progressed_refl u : Progressed onProgress u u
| Progressed_step u u' msg :
    Progressed onProgress u u' ->
    Progressed onProgress u (onProgress msg u').

(** [s'] comes from [s] by progress callbacks and service events only. *)
Definition Frame (onProgress : string -> AppState -> AppState)
    (s s' : Sys) : Prop :=
  Progressed onProgress (ui s) (ui s')
  /\ exists l, log s' = (log s ++ l)%list
               /\ forallb isServiceEvent l = true.

Definition Framed (onProgress : string -> AppState -> AppState)
    {A : Type} (c : M A) : Prop :=
  forall s, Frame onProgress s (fst (c s)).

(** [PollsTo env n k op op']: from query number [k] on, the operation [op]
    is answered [n] times in a row, each time while it is not done, and the
    last answer is [op'] ([op] itself when [n] is 0). *)
Inductive PollsTo (env : Env) : nat -> nat -> Operation -> Operation -> Prop :=
| PollsTo_O k op : PollsTo env 0 k op op
| PollsTo_S n k op op1 op' :
    done op = false ->
    getVideosOperation env k op = inr op1 ->
    PollsTo env n (S k) op1 op' ->
    PollsTo env (S n) k op op'.


(** The state after the effects of one iteration that queries [op]. *)
Definition afterQuery (onProgress : string -> AppState -> AppState)
    (op : Operation) (s : Sys) : Sys :=
  {| ui := onProgress "Still processing... checking status." (ui s);
     log := (log s ++ [EvSetTimeout 10000;
                       EvProgress "Still processing... checking status.";
                       EvGetVideosOperation op])%list |}.

(** What the catch clause of the loop throws for a failed query. *)
Definition rethrown (e : JsError) : JsError :=
  if match message e with
     | Some m => includes m "Requested entity was not found"
     | None => false
     end
  then Error "API_KEY_ERROR" else e.

(** The run up to the loop: the image encodes to a non-empty payload and
    the service accepts the request, answering with the handle [op0]. *)
Definition Submitted (env : Env) (p : string) (f : File) (a : AspectRatio)
    (op0 : Operation) : Prop :=
  exists bytes,
    data (fileToGenerativePart f) = Some bytes
    /\ truthy bytes = true
    /\ generateVideos env (videoRequest p bytes (file_type f) a) = inr op0.

(** The run's loop exits after [n] status queries with the operation [op]
    marked done. *)
Definition LoopExits (env : Env) (p : string) (f : File) (a : AspectRatio)
    (n : nat) (op : Operation) : Prop :=
  exists op0,
    Submitted env p f a op0 /\ PollsTo env n 0 op0 op /\ done op = true.

(** The run's status query number [n] (from 0), asked with [op], fails
    with [e]; the earlier ones were answered. *)
Definition PollFails (env : Env) (p : string) (f : File) (a : AspectRatio)
    (n : nat) (op : Operation) (e : JsError) : Prop :=
  exists op0,
    Submitted env p f a op0 /\ PollsTo env n 0 op0 op /\ done op = false
    /\ getVideosOperation env n op = inl e.

Definition apiKeyMessage : string :=
  "Your API Key is invalid or missing permissions. Please select a valid key.".

(** The state in which the service is called. *)
Definition entered (s : Sys) : Sys :=
  {| ui := setVideoUrl None
             (setError None (setGenerationState gs_loading (ui s)));
     log := (log s ++ [EvSetGenerationState gs_loading])%list |}.

(** The page after a run that resolved with [url]. *)
Definition fulfilled (url : string) (u : AppState) : AppState :=
  {| imageFile := imageFile u; imagePreview := imagePreview u;
     script := script u; aspectRatio := aspectRatio u;
     generationState := gs_success; videoUrl := Some url; error := None;
     loadingMessage := ""; apiKeySelected := apiKeySelected u |}.

(** The page after a run that rejected with [e]. *)
Definition rejected (e : JsError) (u : AppState) : AppState :=
  {| imageFile := imageFile u; imagePreview := imagePreview u;
     script := script u; aspectRatio := aspectRatio u;
     generationState :=
       if is_API_KEY_ERROR e then gs_selecting_key else gs_error;
     videoUrl := None;
     error := Some (if is_API_KEY_ERROR e then apiKeyMessage
                    else messageOr e);
     loadingMessage := "";
     apiKeySelected :=
       if is_API_KEY_ERROR e then Some false else apiKeySelected u |}.






(* ===================================================================== *)
(** ** Concrete runs *)

Definition jpeg : File :=
  {| file_type := "image/jpeg";
     file_dataURL := Some "data:image/jpeg;base64,/9j/4AAQ" |}.

Definition ready : AppState :=
  {| imageFile := Some jpeg;
     imagePreview := Some "data:image/jpeg;base64,/9j/4AAQ";
     script := "A cinematic shot of this object on a beach at sunset.";
     aspectRatio := ar_16_9; generationState := gs_idle; videoUrl := None;
     error := None; loadingMessage := ""; apiKeySelected := Some true |}.

Definition op_running : Operation :=
  {| name := "operations/1"; done := false; op_error := None;
     response := None |}.

Definition op_finished : Operation :=
  {| name := "operations/1"; done := true; op_error := None;
     response := Some {| generatedVideos :=
       Some [ {| video := Some {| uri := Some "https://dl/video?alt=media" |} |} ] |} |}.

Definition op_failed : Operation :=
  {| name := "operations/1"; done := true;
     op_error := Some {| err_message := Some "quota exceeded" |};
     response := None |}.

Definition op_empty : Operation :=
  {| name := "operations/1"; done := true; op_error := None;
     response := None |}.

Definition resp_ok : Response :=
  {| ok := true; status := 200; statusText := "OK"; text := "";
     blob := "mp4-bytes" |}.

(** A service that answers the first status query "running" and every later
    one with [final], and serves every download with [resp]. *)
Definition scripted (final : JsError + Operation) (resp : Response) : Env :=
  {| API_KEY := Some "k";
     generateVideos := fun _ => inr op_running;
     getVideosOperation := fun k _ =>
       match k with O => inr op_running | _ => final end;
     fetch := fun _ => inr resp;
     createObjectURL := fun b => "blob:" ++ b |}.

(** A service that reports the operation done with neither result nor error
    after one "running" answer. *)
Definition env_empty : Env := scripted (inr op_empty) resp_ok.

(** A service that answers "running" to the first [n] status queries. *)
Definition slow (n : nat) : Env :=
  {| API_KEY := None;
     generateVideos := fun _ => inr op_running;
     getVideosOperation := fun k _ =>
       if Nat.ltb k n then inr op_running else inr op_finished;
     fetch := fun _ => inr resp_ok;
     createObjectURL := fun b => b |}.

Definition resp_forbidden : Response :=
  {| ok := false; status := 403; statusText := "Forbidden";
     text := "{ error: API key not valid. Please pass a valid API key. }";
     blob := "" |}.

Definition resp_unavailable : Response :=
  {| ok := false; status := 503; statusText := "Service Unavailable";
     text := "upstream timeout"; blob := "" |}.

Definition env_not_found : Env :=
  scripted (inl (Error "404: Requested entity was not found.")) resp_ok.

Definition shown : AppState :=
  {| imageFile := Some jpeg;
     imagePreview := Some "data:image/jpeg;base64,/9j/4AAQ";
     script := "A cinematic shot of this object on a beach at sunset.";
     aspectRatio := ar_9_16; generationState := gs_success;
     videoUrl := Some "blob:mp4-bytes"; error := None; loadingMessage := "";
     apiKeySelected := Some true |}.

Definition studio_without_key : Aistudio :=
  {| hasSelectedApiKey := inr false; openSelectKey := inr tt |}.

(* ===================================================================== *)
(** ** The page as the user meets it *)

(** Which controls of the render accept the action: the inputs carry
    [disabled={isFormDisabled}] inside the form, the submit button its own
    [disabled], the reset buttons sit in the success and error panels, the
    key button in the [ApiKeySelector].  The mount effect is not a
    control. *)
Definition enabled (a : Action) (st : AppState) : bool :=
  match a with
  | ActMount _ => false
  | ActImageChange _ | ActSetScript _ | ActSetAspectRatio _ =>
      formRendered st && negb (isFormDisabled st)
  | ActSubmit _ _ => submitClickable st
  | ActReset => resetRendered st
  | ActSelectKey _ => selectorRendered st
  end.

(** An attempt at an action: nothing happens on a control that is disabled
    or not rendered. *)
Definition perform (a : Action) (s : Sys) : Sys :=
  if enabled a (ui s) then fst (act a s) else s.

(** A visit of the page: the mount effect ([checkApiKey]), then the user's
    actions in order. *)
Definition session (studio : Aistudio) (actions : list Action) : Sys :=
  fold_left (fun s a => perform a s) actions
    (fst (checkApiKey studio (start initialState))).

(** What holds of the page at every moment of a visit. *)
Definition PageInvariant (st : AppState) : Prop :=
  apiKeySelected st <> None
  /\ (generationState st = gs_selecting_key <-> apiKeySelected st = Some false)
  /\ generationState st <> gs_polling
  /\ (videoUrl st <> None <-> generationState st = gs_success).

(** ** Events of the service *)

(** [c] only appends events that satisfy [P] to the log. *)
Definition Emits (P : Event -> Prop) {A : Type} (c : M A) : Prop :=
  forall s, exists l, log (fst (c s)) = (log s ++ l)%list /\ Forall P l.

(** The events of the poll loop. *)
Definition pollEventOk (ev : Event) : Prop :=
  match ev with
  | EvSetTimeout ms => ms = 10000%Z
  | EvProgress msg => msg = "Still processing... checking status."
  | EvGetVideosOperation op => done op = false
  | _ => False
  end.

(** The events after the loop. *)
Definition deliverEventOk (env : Env) (ev : Event) : Prop :=
  match ev with
  | EvProgress msg => msg = "Finalizing video..."
  | EvFetch url =>
      exists link, link <> "" /\ url = link ++ "&key=" ++ template (API_KEY env)
  | _ => False
  end.

(** The five progress labels. *)
Definition progressLabels : list string :=
  [ "Converting image..."; "Starting video generation...";
    "Processing your video... this may take a few minutes.";
    "Still processing... checking status."; "Finalizing video..." ].

(** The events of a whole run of the service for the prompt [p], the image
    [f] and the aspect ratio [a]. *)
Definition serviceEventOk (env : Env) (p : string) (f : File)
    (a : AspectRatio) (ev : Event) : Prop :=
  match ev with
  | EvProgress msg => In msg progressLabels
  | EvSetTimeout ms => ms = 10000%Z
  | EvGenerateVideos req =>
      exists bytes,
        data (fileToGenerativePart f) = Some bytes /\ bytes <> ""
        /\ req = videoRequest p bytes (file_type f) a
  | EvGetVideosOperation op => done op = false
  | EvFetch url =>
      exists link, link <> "" /\ url = link ++ "&key=" ++ template (API_KEY env)
  | EvSetGenerationState _ | EvHasSelectedApiKey | EvOpenSelectKey => False
  end.

(** The labels shown while the loop waits. *)
Definition waitingLabels : list string :=
  [ "Processing your video... this may take a few minutes.";
    "Still processing... checking status." ].

(** More concrete values. *)
Definition png_no_comma : File :=
  {| file_type := "image/png"; file_dataURL := Some "data:image/png;base64" |}.

Definition env_down : Env :=
  {| API_KEY := Some "k";
     generateVideos := fun _ => inl (Error "503 Service Unavailable");
     getVideosOperation := fun _ _ => inl (Error "unreachable");
     fetch := fun _ => inl (Error "unreachable");
     createObjectURL := fun b => b |}.

Definition env_offline : Env :=
  {| API_KEY := Some "k";
     generateVideos := fun _ => inr op_running;
     getVideosOperation := fun k _ =>
       match k with O => inr op_running | _ => inr op_finished end;
     fetch := fun _ => inl (Error "Failed to fetch");
     createObjectURL := fun b => b |}.

Definition env_done_at_once : Env :=
  {| API_KEY := None;
     generateVideos := fun _ => inr op_finished;
     getVideosOperation := fun _ _ => inl (Error "never asked");
     fetch := fun _ => inr resp_ok;
     createObjectURL := fun b => "blob:" ++ b |}.

Definition studio_with_key : Aistudio :=
  {| hasSelectedApiKey := inr true; openSelectKey := inr tt |}.

(* ===================================================================== *)
(** * Properties *)

(** ** Strings *)

Lemma prefix_spec (a b : string) :
  String.prefix a b = true <-> exists post, b = a ++ post.
Proof.
  revert b. induction a as [|c a IH]; intros [|d b]; simpl.
  - split; [intros _; exists ""; reflexivity | reflexivity].
  - split; [intros _; exists (String d b); reflexivity | reflexivity].
  - split; [discriminate | intros (post & E); discriminate].
  - destruct (ascii_dec c d) as [->|Hcd].
    + rewrite IH. split; intros (post & E); exists post.
      * now rewrite E.
      * now inversion E.
    + split; [discriminate|]. intros (post & E). inversion E. congruence.
Qed.

Lemma includes_unfold (hay needle : string) :
  includes hay needle
  = if String.prefix needle hay then true
    else match hay with
         | EmptyString => false
         | String _ rest => includes rest needle
         end.
Proof. destruct hay; reflexivity. Qed.

(** [includes] is the substring test. *)
Lemma includes_spec (hay needle : string) :
  includes hay needle = true <-> exists pre post, hay = pre ++ needle ++ post.
Proof.
  induction hay as [|c hay IH]; rewrite includes_unfold;
    destruct (String.prefix needle _) eqn:P.
  - apply prefix_spec in P as (post & E).
    split; [intros _; exists "", post; exact E | reflexivity].
  - split; [discriminate|]. intros (pre & post & E).
    destruct pre; [|discriminate]. simpl in E.
    assert (String.prefix needle "" = true) by (apply prefix_spec; eauto).
    congruence.
  - apply prefix_spec in P as (post & E).
    split; [intros _; exists "", post; exact E | reflexivity].
  - rewrite IH. split.
    + intros (pre & post & E). exists (String c pre), post.
      simpl. now rewrite E.
    + intros (pre & post & E). destruct pre as [|d pre].
      * simpl in E.
        assert (String.prefix needle (String c hay) = true)
          by (apply prefix_spec; eauto).
        congruence.
      * inversion E. eauto.
Qed.

(** ** What the service leaves untouched *)

Create HintDb framed.

Section Frames.

Variable onProgress : string -> AppState -> AppState.

Lemma Progressed_trans u v w :
  Progressed onProgress u v -> Progressed onProgress v w -> Progressed onProgress u w.
Proof.
  intros Huv Hvw. induction Hvw; [assumption|].
  constructor. auto.
Qed.

Lemma Frame_refl s : Frame onProgress s s.
Proof.
  split; [constructor|]. exists []. now rewrite app_nil_r.
Qed.

Lemma Frame_trans s1 s2 s3 : Frame onProgress s1 s2 -> Frame onProgress s2 s3 -> Frame onProgress s1 s3.
Proof.
  intros [P12 (l12 & E12 & F12)] [P23 (l23 & E23 & F23)]. split.
  - eapply Progressed_trans; eassumption.
  - exists (l12 ++ l23)%list. rewrite E23, E12, app_assoc, forallb_app, F12, F23.
    auto.
Qed.

Lemma Framed_ret {A} (a : A) : Framed onProgress (ret a).
Proof. intro s. apply Frame_refl. Qed.

Lemma Framed_throw {A} e : Framed onProgress (@throw A e).
Proof. intro s. apply Frame_refl. Qed.

Lemma Framed_pending {A} : Framed onProgress (@pending A).
Proof. intro s. apply Frame_refl. Qed.

Lemma Framed_await {A} (r : JsError + A) : Framed onProgress (await r).
Proof. destruct r; [apply Framed_throw | apply Framed_ret]. Qed.

Lemma Framed_bind {A B} (c : M A) (k : A -> M B) :
  Framed onProgress c -> (forall a, Framed onProgress (k a)) -> Framed onProgress (bind c k).
Proof.
  intros Hc Hk s. unfold bind. specialize (Hc s).
  destruct (c s) as [s' [a | e |]]; simpl in *; try assumption.
  eapply Frame_trans; [eassumption | apply Hk].
Qed.

Lemma Framed_emit ev : isServiceEvent ev = true -> Framed onProgress (emit ev).
Proof.
  intros H s. split; simpl; [constructor|].
  exists [ev]. simpl. now rewrite H.
Qed.

Lemma Framed_progress msg : Framed onProgress (progress onProgress msg).
Proof.
  apply Framed_bind; [now apply Framed_emit|].
  intros _ s. split; simpl.
  - apply Progressed_step, Progressed_refl.
  - exists []. now rewrite app_nil_r.
Qed.

#[local] Hint Resolve Framed_ret Framed_throw Framed_pending Framed_await
  Framed_progress : framed.

Variable env : Env.

Lemma Framed_pollLoop fuel :
  forall k op, Framed onProgress (pollLoop env onProgress fuel k op).
Proof.
  induction fuel as [|fuel IH]; intros k op; simpl;
    destruct (done op); auto with framed.
  apply Framed_bind; [now apply Framed_emit|]. intros _.
  apply Framed_bind; [apply Framed_progress|]. intros _.
  apply Framed_bind; [now apply Framed_emit|]. intros _.
  destruct (getVideosOperation env k op) as [e|op']; [|apply IH].
  destruct (match message e with Some m => _ | None => _ end);
    auto with framed.
Qed.

Lemma Framed_deliver op : Framed onProgress (deliver env onProgress op).
Proof.
  unfold deliver. destruct (op_error op); auto with framed.
  apply Framed_bind; [apply Framed_progress|]. intros _.
  destruct (downloadLinkOf op) as [[|c' link]|]; auto with framed.
  apply Framed_bind; [now apply Framed_emit|]. intros _.
  apply Framed_bind; [apply Framed_await|]. intros resp.
  destruct (negb (ok resp)); auto with framed.
  destruct (includes _ _); auto with framed.
Qed.

Lemma Framed_generateVideoFromImage fuel p f a :
  Framed onProgress (generateVideoFromImage env onProgress fuel p f a).
Proof.
  unfold generateVideoFromImage.
  apply Framed_bind; [apply Framed_progress|]. intros _.
  destruct (data (fileToGenerativePart f)) as [[|c bytes]|];
    auto with framed.
  apply Framed_bind; [apply Framed_progress|]. intros _.
  apply Framed_bind; [now apply Framed_emit|]. intros _.
  apply Framed_bind; [apply Framed_await|]. intros op0.
  apply Framed_bind; [apply Framed_progress|]. intros _.
  apply Framed_bind; [apply Framed_pollLoop|]. intros op.
  apply Framed_deliver.
Qed.

End Frames.

(** With [setLoadingMessage] as the callback, progress touches the loading
    message only. *)
Lemma Progressed_setLoadingMessage u u' :
  Progressed setLoadingMessage u u' ->
  setLoadingMessage "" u' = setLoadingMessage "" u.
Proof.
  induction 1 as [|u u' msg _ IH]; [reflexivity|]. rewrite <- IH. reflexivity.
Qed.



(** ** The poll loop along a run of the remote service *)

Section Runs.

Variable env : Env.
Variable onProgress : string -> AppState -> AppState.

Lemma pollLoop_done fuel k op s :
  done op = true -> pollLoop env onProgress fuel k op s = (s, Returned op).
Proof. intro H. destruct fuel; simpl; rewrite H; reflexivity. Qed.

Lemma pollLoop_next fuel k op op1 s :
  done op = false -> getVideosOperation env k op = inr op1 ->
  pollLoop env onProgress (S fuel) k op s
  = pollLoop env onProgress fuel (S k) op1 (afterQuery onProgress op s).
Proof.
  intros Hd Hq. simpl. rewrite Hd.
  unfold bind, sleep, progress, emit, update, afterQuery; simpl.
  rewrite Hq, <- !app_assoc. reflexivity.
Qed.

Lemma pollLoop_fail fuel k op e s :
  done op = false -> getVideosOperation env k op = inl e ->
  pollLoop env onProgress (S fuel) k op s
  = (afterQuery onProgress op s, Threw (rethrown e)).
Proof.
  intros Hd Hq. simpl. rewrite Hd.
  unfold bind, sleep, progress, emit, update, afterQuery, rethrown; simpl.
  rewrite Hq, <- !app_assoc.
  destruct (match message e with Some m => _ | None => _ end); reflexivity.
Qed.

Lemma pollLoop_starved k op s :
  done op = false -> pollLoop env onProgress 0 k op s = (s, Pending).
Proof. intro H. simpl. rewrite H. reflexivity. Qed.

(** The loop only ever returns an operation that is done. *)
Lemma pollLoop_returns_done fuel :
  forall k op s s' op',
    pollLoop env onProgress fuel k op s = (s', Returned op') ->
    done op' = true.
Proof.
  induction fuel as [|fuel IH]; intros k op s s' op' H.
  - simpl in H. destruct (done op) eqn:Hd; inversion H; subst; assumption.
  - destruct (done op) eqn:Hd.
    + rewrite pollLoop_done in H by assumption. inversion H; subst.
      assumption.
    + destruct (getVideosOperation env k op) as [e|op1] eqn:Hq.
      * rewrite (pollLoop_fail _ _ _ e) in H by assumption. discriminate.
      * rewrite (pollLoop_next _ _ _ op1) in H by assumption. eauto.
Qed.

(** Following the service for [n] answered queries. *)
Lemma pollLoop_PollsTo n k op op' :
  PollsTo env n k op op' ->
  forall fuel s, exists s',
    pollLoop env onProgress (n + fuel) k op s
    = pollLoop env onProgress fuel (n + k) op' s'
    /\ Frame onProgress s s'.
Proof.
  induction 1 as [k op | n k op op1 op' Hd Hq _ IH]; intros fuel s.
  - exists s. split; [reflexivity | apply Frame_refl].
  - destruct (IH fuel (afterQuery onProgress op s)) as (s' & E & F).
    exists s'. split.
    + replace (S n + k) with (n + S k) by lia. rewrite <- E.
      change (S n + fuel) with (S (n + fuel)). now apply pollLoop_next.
    + eapply Frame_trans; [|exact F]. split; simpl.
      * apply Progressed_step, Progressed_refl.
      * eexists. split; reflexivity.
Qed.

Lemma generateVideoFromImage_Submitted p f a op0 fuel s :
  Submitted env p f a op0 ->
  exists s',
    generateVideoFromImage env onProgress fuel p f a s
    = (op <- pollLoop env onProgress fuel 0 op0 ;;
       deliver env onProgress op) s'
    /\ Frame onProgress s s'.
Proof.
  intros (bytes & Hdata & Hne & Hgen).
  unfold generateVideoFromImage.
  destruct bytes as [|c bytes]; [discriminate|].
  rewrite Hdata.
  change (mimeType (fileToGenerativePart f)) with (file_type f).
  cbv zeta. rewrite Hgen.
  eexists. split.
  - unfold bind at 1 2 3 4 5. simpl. reflexivity.
  - split; simpl.
    + do 3 apply Progressed_step. apply Progressed_refl.
    + eexists. rewrite <- !app_assoc. split; reflexivity.
Qed.

Lemma generateVideoFromImage_LoopExits p f a n op fuel s :
  LoopExits env p f a n op -> n <= fuel ->
  exists s',
    generateVideoFromImage env onProgress fuel p f a s
    = deliver env onProgress op s'
    /\ Frame onProgress s s'.
Proof.
  intros (op0 & Hsub & Hpolls & Hdone) Hfuel.
  destruct (generateVideoFromImage_Submitted p f a op0 fuel s Hsub)
    as (s1 & E1 & F1).
  destruct (pollLoop_PollsTo n 0 op0 op Hpolls (fuel - n) s1)
    as (s2 & E2 & F2).
  replace (n + (fuel - n)) with fuel in E2 by lia.
  exists s2. split; [|eapply Frame_trans; eassumption].
  rewrite E1. unfold bind at 1. rewrite E2, pollLoop_done by assumption.
  reflexivity.
Qed.

Lemma generateVideoFromImage_PollFails p f a n op e fuel s :
  PollFails env p f a n op e -> n < fuel ->
  exists s',
    generateVideoFromImage env onProgress fuel p f a s
    = (afterQuery onProgress op s', Threw (rethrown e))
    /\ Frame onProgress s s'.
Proof.
  intros (op0 & Hsub & Hpolls & Hdone & Hq) Hfuel.
  destruct (generateVideoFromImage_Submitted p f a op0 fuel s Hsub)
    as (s1 & E1 & F1).
  destruct (pollLoop_PollsTo n 0 op0 op Hpolls (fuel - n) s1)
    as (s2 & E2 & F2).
  replace (n + (fuel - n)) with fuel in E2 by lia.
  exists s2. split; [|eapply Frame_trans; eassumption].
  rewrite E1. unfold bind at 1. rewrite E2.
  destruct (fuel - n) as [|fuel'] eqn:Hf; [lia|].
  rewrite Nat.add_0_r. rewrite (pollLoop_fail _ _ _ e) by assumption.
  reflexivity.
Qed.

End Runs.

(** ** The submit handler around a run of the service *)

Section Submit.

Variable env : Env.
Variable fuel : nat.
Variable s : Sys.
Variable f : File.
Hypothesis Hfile : imageFile (ui s) = Some f.
Hypothesis Hscript : truthy (script (ui s)) = true.
Hypothesis Hkey : apiKeySelected (ui s) = Some true.

Let service : M string :=
  generateVideoFromImage env setLoadingMessage fuel
    (script (ui s)) f (aspectRatio (ui s)).

Lemma service_fields s2 out :
  service (entered s) = (s2, out) ->
  setLoadingMessage "" (ui s2) = setLoadingMessage "" (ui (entered s)).
Proof.
  intro Hrun.
  pose proof (Framed_generateVideoFromImage setLoadingMessage env fuel
                (script (ui s)) f (aspectRatio (ui s)) (entered s)) as H.
  fold service in H. rewrite Hrun in H. destruct H as [P _].
  now apply Progressed_setLoadingMessage.
Qed.

Lemma handleSubmit_returned s2 url :
  service (entered s) = (s2, Returned url) ->
  handleSubmit env fuel s
  = ({| ui := fulfilled url (ui s);
        log := (log s2 ++ [EvSetGenerationState gs_success])%list |},
     Returned tt).
Proof.
  intro Hrun.
  pose proof (service_fields _ _ Hrun) as Hf.
  unfold service in Hrun.
  unfold handleSubmit. rewrite Hfile, Hscript, Hkey. simpl.
  unfold bind at 1 2 3. simpl. unfold try_catch_finally.
  unfold bind at 1. fold (entered s). rewrite Hrun. simpl.
  destruct s2 as [u2 l2]. destruct u2. unfold setLoadingMessage in Hf.
  simpl in Hf. injection Hf; intros; subst. reflexivity.
Qed.

Lemma handleSubmit_threw s2 e :
  service (entered s) = (s2, Threw e) ->
  handleSubmit env fuel s
  = ({| ui := rejected e (ui s);
        log := (log s2 ++ [EvSetGenerationState
                             (if is_API_KEY_ERROR e then gs_selecting_key
                              else gs_error)])%list |},
     Returned tt).
Proof.
  intro Hrun.
  pose proof (service_fields _ _ Hrun) as Hf.
  unfold service in Hrun.
  unfold handleSubmit. rewrite Hfile, Hscript, Hkey. simpl.
  unfold bind at 1 2 3. simpl. unfold try_catch_finally.
  unfold bind at 1. fold (entered s). rewrite Hrun. simpl.
  destruct s2 as [u2 l2]. destruct u2. unfold setLoadingMessage in Hf.
  simpl in Hf. injection Hf; intros; subst.
  unfold rejected. destruct (is_API_KEY_ERROR e); reflexivity.
Qed.

Lemma handleSubmit_pending s2 :
  service (entered s) = (s2, Pending) ->
  handleSubmit env fuel s = (s2, Pending).
Proof.
  intro Hrun. unfold service in Hrun.
  unfold handleSubmit. rewrite Hfile, Hscript, Hkey. simpl.
  unfold bind at 1 2 3. simpl. unfold try_catch_finally.
  unfold bind at 1. fold (entered s). rewrite Hrun. reflexivity.
Qed.

End Submit.

(* ===================================================================== *)
(** * The poll loop ends in a classified outcome *)







(** There is no cap on the iterations: the loop is still running after any
    [fuel <= n] iterations against [slow n]. *)
Lemma pollLoop_no_cap (n fuel : nat) (s : Sys) :
  fuel <= n ->
  snd (pollLoop (slow n) setLoadingMessage fuel 0 op_running s) = Pending.
Proof.
  intro H. replace 0 with (n - n) by lia.
  assert (Hk : n - n + fuel <= n) by lia. revert s Hk.
  generalize (n - n) as k. clear H.
  induction fuel as [|fuel IH]; intros k s Hk; [reflexivity|].
  rewrite (pollLoop_next _ _ _ _ _ op_running); [apply IH; lia|reflexivity|].
  simpl. destruct (Nat.ltb_spec k n); [reflexivity|lia].
Qed.

(* ===================================================================== *)
(** * The error taxonomy of the pipeline *)

Section Deliver.

Variable env : Env.
Variable onProgress : string -> AppState -> AppState.

Lemma deliver_error op err s :
  op_error op = Some err ->
  deliver env onProgress op s
  = (s, Threw (Error ("Video generation failed: "
                      ++ template (err_message err)))).
Proof. intro H. unfold deliver. rewrite H. reflexivity. Qed.

Lemma deliver_missing op s :
  op_error op = None -> downloadLinkOf op = None ->
  snd (deliver env onProgress op s)
  = Threw (Error "Could not retrieve video download link.").
Proof. intros He Hl. unfold deliver. rewrite He, Hl. reflexivity. Qed.

Lemma deliver_refused op link resp s :
  op_error op = None -> downloadLinkOf op = Some link ->
  truthy link = true ->
  fetch env (link ++ "&key=" ++ template (API_KEY env)) = inr resp ->
  ok resp = false ->
  snd (deliver env onProgress op s)
  = Threw (if includes (text resp) "API key not valid"
           then Error "API_KEY_ERROR"
           else Error ("Failed to download video: " ++ statusText resp)).
Proof.
  intros He Hl Hne Hf Hok. unfold deliver. rewrite He, Hl.
  destruct link as [|c link]; [discriminate|].
  unfold bind at 1 2 3. simpl. simpl in Hf. rewrite Hf. simpl.
  rewrite Hok. simpl. destruct (includes _ _); reflexivity.
Qed.

End Deliver.

(** C4.  A run reaches the download: the loop exits with the operation done,
    without error payload and with a result reference, and the download is
    answered with a non-success response [resp].  Then, whatever the status
    code of [resp], the pipeline fails with the API-key error when the
    response body contains "API key not valid", and otherwise with the
    download error that carries the response's status text. *)
Theorem download_failure_classified (env : Env)
    (onProgress : string -> AppState -> AppState) (fuel : nat) (p : string)
    (f : File) (a : AspectRatio) (n : nat) (op : Operation) (link : string)
    (resp : Response) (s : Sys) :
  LoopExits env p f a n op -> n <= fuel ->
  op_error op = None ->
  downloadLinkOf op = Some link -> truthy link = true ->
  fetch env (link ++ "&key=" ++ template (API_KEY env)) = inr resp ->
  ok resp = false ->
  let out := snd (generateVideoFromImage env onProgress fuel p f a s) in
  (includes (text resp) "API key not valid" = true ->
   out = Threw (Error "API_KEY_ERROR"))
  /\ (includes (text resp) "API key not valid" = false ->
      out = Threw (Error ("Failed to download video: " ++ statusText resp))).
Proof.
  intros Hexit Hfuel He Hl Hne Hf Hok out. subst out.
  destruct (generateVideoFromImage_LoopExits env onProgress p f a n op fuel s
              Hexit Hfuel) as (s1 & E & _).
  rewrite E, (deliver_refused env onProgress op link resp) by assumption.
  split; intros ->; reflexivity.
Qed.

Lemma LoopExits_scripted op resp :
  done op = true ->
  LoopExits (scripted (inr op) resp) (script ready) jpeg ar_16_9 2 op.
Proof.
  intro Hd. exists op_running. split; [|split].
  - exists "/9j/4AAQ". repeat split.
  - eapply PollsTo_S; [reflexivity | reflexivity |].
    eapply PollsTo_S; [reflexivity | reflexivity |]. apply PollsTo_O.
  - exact Hd.
Qed.

Lemma download_failure_classified_witness :
  let out env :=
    snd (generateVideoFromImage env setLoadingMessage 2 (script ready) jpeg
           ar_16_9 (start ready)) in
  out (scripted (inr op_finished) resp_forbidden)
  = Threw (Error "API_KEY_ERROR")
  /\ out (scripted (inr op_finished) resp_unavailable)
     = Threw (Error "Failed to download video: Service Unavailable").
Proof.
  split.
  - refine (proj1 (download_failure_classified
             (scripted (inr op_finished) resp_forbidden) setLoadingMessage 2
             (script ready) jpeg ar_16_9 2 op_finished
             "https://dl/video?alt=media" resp_forbidden (start ready)
             _ _ _ _ _ _ _) _);
      solve [reflexivity | lia | now apply LoopExits_scripted].
  - refine (proj2 (download_failure_classified
             (scripted (inr op_finished) resp_unavailable) setLoadingMessage 2
             (script ready) jpeg ar_16_9 2 op_finished
             "https://dl/video?alt=media" resp_unavailable (start ready)
             _ _ _ _ _ _ _) _);
      solve [reflexivity | lia | now apply LoopExits_scripted].
Defined.

(** C7.  A submitted run whose loop exits with the operation done and
    carrying an error payload: the pipeline fails with the error "Video
    generation failed: " followed by the payload's message (printed as
    "undefined" when the payload has none), the page ends in the error state
    showing that text, and no video URL is set. *)
Theorem generation_error_reported (env : Env) (fuel : nat) (s : Sys)
    (f : File) (n : nat) (op : Operation) (err : OperationError) :
  imageFile (ui s) = Some f ->
  truthy (script (ui s)) = true ->
  apiKeySelected (ui s) = Some true ->
  LoopExits env (script (ui s)) f (aspectRatio (ui s)) n op ->
  op_error op = Some err ->
  n <= fuel ->
  let reported := "Video generation failed: " ++ template (err_message err) in
  (forall s0,
      snd (generateVideoFromImage env setLoadingMessage fuel (script (ui s)) f
             (aspectRatio (ui s)) s0)
      = Threw (Error reported))
  /\ (forall m, err_message err = Some m ->
      reported = "Video generation failed: " ++ m)
  /\ snd (handleSubmit env fuel s) = Returned tt
  /\ generationState (ui (fst (handleSubmit env fuel s))) = gs_error
  /\ error (ui (fst (handleSubmit env fuel s))) = Some reported
  /\ videoUrl (ui (fst (handleSubmit env fuel s))) = None.
Proof.
  intros Hfile Hscript Hkey Hexit He Hfuel reported.
  assert (Hout : forall s0,
             snd (generateVideoFromImage env setLoadingMessage fuel
                    (script (ui s)) f (aspectRatio (ui s)) s0)
             = Threw (Error reported)).
  { intro s0.
    destruct (generateVideoFromImage_LoopExits env setLoadingMessage _ _ _ _ _
                fuel s0 Hexit Hfuel) as (s1 & E & _).
    rewrite E, (deliver_error _ _ _ err) by assumption. reflexivity. }
  split; [exact Hout|].
  split; [intros m Hm; subst reported; rewrite Hm; reflexivity|].
  specialize (Hout (entered s)).
  destruct (generateVideoFromImage env setLoadingMessage fuel (script (ui s))
              f (aspectRatio (ui s)) (entered s)) as [s2 out] eqn:Hrun.
  simpl in Hout. subst out.
  rewrite (handleSubmit_threw env fuel s f Hfile Hscript Hkey s2 _ Hrun).
  simpl. auto.
Qed.

Lemma generation_error_reported_witness :
  let r := handleSubmit (scripted (inr op_failed) resp_ok) 2 (start ready) in
  snd r = Returned tt
  /\ generationState (ui (fst r)) = gs_error
  /\ error (ui (fst r)) = Some "Video generation failed: quota exceeded"
  /\ videoUrl (ui (fst r)) = None.
Proof.
  refine (proj2 (proj2 (generation_error_reported
            (scripted (inr op_failed) resp_ok) 2 (start ready) jpeg 2
            op_failed {| err_message := Some "quota exceeded" |}
            _ _ _ _ _ _)));
    solve [reflexivity | lia | now apply LoopExits_scripted].
Defined.

(** C8.  A submitted run whose loop exits with the operation done, without
    error payload and without a result reference: the pipeline fails with
    "Could not retrieve video download link.", and the page ends in the
    generic error state showing that message. *)
Theorem missing_result_reported (env : Env) (fuel : nat) (s : Sys)
    (f : File) (n : nat) (op : Operation) :
  imageFile (ui s) = Some f ->
  truthy (script (ui s)) = true ->
  apiKeySelected (ui s) = Some true ->
  LoopExits env (script (ui s)) f (aspectRatio (ui s)) n op ->
  op_error op = None -> downloadLinkOf op = None ->
  n <= fuel ->
  (forall s0,
      snd (generateVideoFromImage env setLoadingMessage fuel (script (ui s)) f
             (aspectRatio (ui s)) s0)
      = Threw (Error "Could not retrieve video download link."))
  /\ snd (handleSubmit env fuel s) = Returned tt
  /\ generationState (ui (fst (handleSubmit env fuel s))) = gs_error
  /\ error (ui (fst (handleSubmit env fuel s)))
     = Some "Could not retrieve video download link."
  /\ videoUrl (ui (fst (handleSubmit env fuel s))) = None
  /\ apiKeySelected (ui (fst (handleSubmit env fuel s))) = Some true.
Proof.
  intros Hfile Hscript Hkey Hexit He Hl Hfuel.
  assert (Hout : forall s0,
             snd (generateVideoFromImage env setLoadingMessage fuel
                    (script (ui s)) f (aspectRatio (ui s)) s0)
             = Threw (Error "Could not retrieve video download link.")).
  { intro s0.
    destruct (generateVideoFromImage_LoopExits env setLoadingMessage _ _ _ _ _
                fuel s0 Hexit Hfuel) as (s1 & E & _).
    rewrite E. now apply deliver_missing. }
  split; [exact Hout|].
  specialize (Hout (entered s)).
  destruct (generateVideoFromImage env setLoadingMessage fuel (script (ui s))
              f (aspectRatio (ui s)) (entered s)) as [s2 out] eqn:Hrun.
  simpl in Hout. subst out.
  rewrite (handleSubmit_threw env fuel s f Hfile Hscript Hkey s2 _ Hrun).
  simpl. auto.
Qed.

Lemma missing_result_reported_witness :
  let r := handleSubmit env_empty 2 (start ready) in
  snd r = Returned tt
  /\ generationState (ui (fst r)) = gs_error
  /\ error (ui (fst r)) = Some "Could not retrieve video download link."
  /\ videoUrl (ui (fst r)) = None
  /\ apiKeySelected (ui (fst r)) = Some true.
Proof.
  refine (proj2 (missing_result_reported env_empty 2 (start ready) jpeg 2
                   op_empty _ _ _ _ _ _ _));
    solve [reflexivity | lia | now apply LoopExits_scripted].
Defined.


Lemma PollFails_scripted e resp :
  PollFails (scripted (inl e) resp) (script ready) jpeg ar_16_9 1 op_running e.
Proof.
  exists op_running. split; [|split; [|split]].
  - exists "/9j/4AAQ". repeat split.
  - eapply PollsTo_S; [reflexivity | reflexivity |]. apply PollsTo_O.
  - reflexivity.
  - reflexivity.
Qed.



(* ===================================================================== *)
(** * The state machine of the page *)




(** C5.  When the image is missing, the script is empty or the credential
    flag is not [true], the submit handler returns at once: the state and
    the log are unchanged (no call to the service), and the submit button
    cannot be activated.  In the first two cases its [disabled] attribute
    is set; in the third the form that holds it is not rendered. *)
Theorem handleSubmit_guard (env : Env) (fuel : nat) (s : Sys) :
  imageFile (ui s) = None \/ script (ui s) = ""
  \/ apiKeySelected (ui s) <> Some true ->
  handleSubmit env fuel s = (s, Returned tt)
  /\ submitClickable (ui (fst (handleSubmit env fuel s))) = false
  /\ (imageFile (ui s) = None \/ script (ui s) = "" ->
      submitDisabled (ui (fst (handleSubmit env fuel s))) = true)
  /\ (apiKeySelected (ui s) <> Some true ->
      formRendered (ui (fst (handleSubmit env fuel s))) = false).
Proof.
  intro H.
  assert (E : handleSubmit env fuel s = (s, Returned tt)).
  { unfold handleSubmit.
    destruct (imageFile (ui s)) as [file|]; [|reflexivity].
    destruct H as [H | [H | H]]; [discriminate | |].
    - rewrite H. reflexivity.
    - destruct (apiKeySelected (ui s)) as [[|]|]; [congruence | |];
        rewrite orb_true_r; reflexivity. }
  assert (D : imageFile (ui s) = None \/ script (ui s) = "" ->
              submitDisabled (ui s) = true).
  { unfold submitDisabled. intros [H' | H']; rewrite H'; simpl;
      [reflexivity | now rewrite orb_true_r]. }
  assert (R : apiKeySelected (ui s) <> Some true ->
              formRendered (ui s) = false).
  { intro Hk. unfold formRendered.
    destruct (apiKeySelected (ui s)) as [[|]|]; [congruence | |];
      reflexivity. }
  rewrite E. simpl. repeat split; auto.
  unfold submitClickable.
  destruct H as [H | [H | H]];
    [rewrite D by auto | rewrite D by auto | rewrite R by auto];
    auto using andb_false_r.
Qed.

Lemma handleSubmit_guard_witness :
  let s := start (setScript "" ready) in
  let env := scripted (inr op_finished) resp_ok in
  (imageFile (ui s) = None \/ script (ui s) = ""
   \/ apiKeySelected (ui s) <> Some true)
  /\ handleSubmit env 2 s = (s, Returned tt)
  /\ submitClickable (ui (fst (handleSubmit env 2 s))) = false.
Proof.
  assert (H : imageFile (ui (start (setScript "" ready))) = None
              \/ script (ui (start (setScript "" ready))) = ""
              \/ apiKeySelected (ui (start (setScript "" ready)))
                 <> Some true)
    by (right; left; reflexivity).
  split; [exact H|].
  pose proof (handleSubmit_guard (scripted (inr op_finished) resp_ok) 2
                (start (setScript "" ready)) H) as (E & C & _).
  split; [exact E | exact C].
Defined.

(** C6.  [resetState] clears the image file, the preview, the script, the
    video URL and the error message, keeps the credential flag, and sets
    the generation state to [idle] when the flag is [true] and to
    [selecting_key] otherwise; so in particular from [success] and from
    [error]. *)
Theorem resetState_clears (s : Sys) :
  generationState (ui s) = gs_success \/ generationState (ui s) = gs_error ->
  let s' := fst (resetState s) in
  snd (resetState s) = Returned tt
  /\ imageFile (ui s') = None
  /\ imagePreview (ui s') = None
  /\ script (ui s') = ""
  /\ videoUrl (ui s') = None
  /\ error (ui s') = None
  /\ apiKeySelected (ui s') = apiKeySelected (ui s)
  /\ generationState (ui s')
     = match apiKeySelected (ui s) with
       | Some true => gs_idle
       | Some false | None => gs_selecting_key
       end.
Proof.
  intros _. simpl. repeat split.
  destruct (apiKeySelected (ui s)) as [[|]|]; reflexivity.
Qed.

Lemma resetState_clears_witness :
  let s' := fst (resetState (start shown)) in
  (generationState shown = gs_success \/ generationState shown = gs_error)
  /\ imageFile (ui s') = None
  /\ imagePreview (ui s') = None
  /\ script (ui s') = ""
  /\ videoUrl (ui s') = None
  /\ error (ui s') = None
  /\ apiKeySelected (ui s') = Some true
  /\ generationState (ui s') = gs_idle.
Proof.
  split; [left; reflexivity|].
  exact (proj2 (resetState_clears (start shown) (or_introl eq_refl))).
Defined.

(** X24.  The reset buttons are rendered inside the form, so a reset
    clicked on the page finds the credential flag [true] and goes to
    [idle]. *)
Lemma resetState_from_page (s : Sys) :
  resetRendered (ui s) = true ->
  generationState (ui (fst (resetState s))) = gs_idle.
Proof.
  unfold resetRendered, formRendered. intro H.
  apply andb_true_iff in H as [H _]. simpl. rewrite H. reflexivity.
Qed.

(** C9.  [resetState] keeps the selected aspect ratio: in every state, and so
    after any sequence of actions on the page, the aspect ratio after a
    reset is the one before it.  It is not put back to 16:9: a page set to
    9:16 still shows 9:16 after the reset. *)
Theorem resetState_keeps_aspectRatio (actions : list Action) (s0 : Sys) :
  let s := runActions actions s0 in
  aspectRatio (ui (fst (resetState s))) = aspectRatio (ui s)
  /\ aspectRatio (ui (fst (resetState s0))) = aspectRatio (ui s0)
  /\ aspectRatio
       (ui (runActions [ActSetAspectRatio ar_9_16; ActReset]
              (start initialState)))
     = ar_9_16.
Proof. repeat split. Qed.

(** C10.  When [openSelectKey] resolves, [handleSelectKey] sets the
    credential flag to [true] and the generation state to [idle], and the
    only call to the credential provider is [openSelectKey]:
    [hasSelectedApiKey] is not asked, and its answer plays no part. *)
Theorem handleSelectKey_trusts_dialog (studio : Aistudio) (s : Sys) (u : unit) :
  openSelectKey studio = inr u ->
  let s' := fst (handleSelectKey studio s) in
  snd (handleSelectKey studio s) = Returned tt
  /\ apiKeySelected (ui s') = Some true
  /\ generationState (ui s') = gs_idle
  /\ log s' = (log s ++ [EvOpenSelectKey; EvSetGenerationState gs_idle])%list
  /\ (~ In EvHasSelectedApiKey (log s) -> ~ In EvHasSelectedApiKey (log s'))
  /\ forall answer,
       handleSelectKey
         {| hasSelectedApiKey := answer; openSelectKey := inr u |} s
       = handleSelectKey studio s.
Proof.
  intro H. unfold handleSelectKey. simpl. rewrite H.
  unfold bind, emit, onKeySelected, enter, bind, emit, update. simpl.
  rewrite <- app_assoc. simpl. repeat split; auto.
  intros Hno Hin. apply in_app_or in Hin as [Hin | Hin]; [auto|].
  simpl in Hin. intuition discriminate.
Qed.

Lemma handleSelectKey_trusts_dialog_witness :
  let s := start (setApiKeySelected (Some false) initialState) in
  let s' := fst (handleSelectKey studio_without_key s) in
  hasSelectedApiKey studio_without_key = inr false
  /\ openSelectKey studio_without_key = inr tt
  /\ apiKeySelected (ui s') = Some true
  /\ generationState (ui s') = gs_idle
  /\ log s' = [EvOpenSelectKey; EvSetGenerationState gs_idle].
Proof.
  pose proof (handleSelectKey_trusts_dialog studio_without_key
                (start (setApiKeySelected (Some false) initialState)) tt
                eq_refl) as (_ & K & G & L & _).
  split; [reflexivity|]. split; [reflexivity|].
  split; [exact K|]. split; [exact G | exact L].
Defined.

(* ===================================================================== *)
(** * The image payload *)

Lemma includes_comma_cons (c : ascii) (s : string) :
  includes (String c s) "," = false ->
  Ascii.eqb c "," = false /\ includes s "," = false.
Proof.
  intro H. split.
  - destruct (Ascii.eqb_spec c ",") as [->|]; [|reflexivity].
    rewrite <- H. symmetry. apply includes_spec. exists "", s. reflexivity.
  - destruct (includes s ",") eqn:Hs; [|reflexivity].
    apply includes_spec in Hs as (pre & post & E).
    rewrite <- H. symmetry. apply includes_spec. exists (String c pre), post.
    simpl. now rewrite E.
Qed.

Lemma split_length (s : string) : 1 <= length (split "," s).
Proof.
  induction s as [|c s IH]; simpl; [lia|].
  destruct (Ascii.eqb c ","); simpl; [lia|].
  destruct (split "," s); simpl in *; lia.
Qed.

Lemma split_comma_length (pre post : string) :
  2 <= length (split "," (pre ++ String "," post)).
Proof.
  induction pre as [|c pre IH]; simpl.
  - pose proof (split_length post). lia.
  - destruct (Ascii.eqb c ","); simpl; [lia|].
    destruct (split "," (pre ++ String "," post)); simpl in *; lia.
Qed.

Lemma split_no_comma (s : string) :
  includes s "," = false -> split "," s = [s].
Proof.
  induction s as [|c s IH]; [reflexivity|]. intro H.
  apply includes_comma_cons in H as [Hc Hs].
  simpl. rewrite Hc, (IH Hs). reflexivity.
Qed.

Lemma split_at_first_comma (h rest : string) :
  includes h "," = false ->
  split "," (h ++ String "," rest) = h :: split "," rest.
Proof.
  induction h as [|c h IH]; intro H; [reflexivity|].
  apply includes_comma_cons in H as [Hc Hh].
  simpl. rewrite Hc, (IH Hh). reflexivity.
Qed.

(** X1.  For a data URL made of a header without comma, a comma, and a
    payload without comma, [fileToGenerativePart] yields exactly the payload,
    paired with the file's MIME type. *)
Theorem fileToGenerativePart_payload (f : File) (header payload : string) :
  file_dataURL f = Some (header ++ "," ++ payload) ->
  includes header "," = false ->
  includes payload "," = false ->
  fileToGenerativePart f
  = {| data := Some payload; mimeType := file_type f |}.
Proof.
  intros Hurl Hh Hp. unfold fileToGenerativePart. rewrite Hurl.
  change (header ++ "," ++ payload) with (header ++ String "," payload).
  rewrite (split_at_first_comma _ _ Hh), (split_no_comma _ Hp). reflexivity.
Qed.

Lemma fileToGenerativePart_payload_witness :
  fileToGenerativePart jpeg
  = {| data := Some "/9j/4AAQ"; mimeType := "image/jpeg" |}.
Proof.
  exact (fileToGenerativePart_payload jpeg "data:image/jpeg;base64" "/9j/4AAQ"
           eq_refl eq_refl eq_refl).
Defined.

(** X2.  The payload is the text between the first and the second comma
    only: whatever follows a second comma in the reader's result is
    dropped. *)
Theorem fileToGenerativePart_second_comma (f : File)
    (header payload tail : string) :
  file_dataURL f = Some (header ++ "," ++ payload ++ "," ++ tail) ->
  includes header "," = false ->
  includes payload "," = false ->
  data (fileToGenerativePart f) = Some payload.
Proof.
  intros Hurl Hh Hp. unfold fileToGenerativePart. rewrite Hurl.
  change (header ++ "," ++ payload ++ "," ++ tail)
    with (header ++ String "," (payload ++ String "," tail)).
  rewrite (split_at_first_comma _ _ Hh), (split_at_first_comma _ _ Hp).
  reflexivity.
Qed.

Lemma fileToGenerativePart_second_comma_witness :
  data (fileToGenerativePart
          {| file_type := "text/plain";
             file_dataURL := Some "data:text/plain,a,b" |})
  = Some "a".
Proof.
  exact (fileToGenerativePart_second_comma
           {| file_type := "text/plain";
              file_dataURL := Some "data:text/plain,a,b" |}
           "data:text/plain" "a" "b" eq_refl eq_refl eq_refl).
Defined.

(** X23.  The payload is undefined exactly when the reader gave a string
    without a comma. *)
Lemma fileToGenerativePart_no_payload (f : File) :
  data (fileToGenerativePart f) = None
  <-> exists r, file_dataURL f = Some r /\ includes r "," = false.
Proof.
  unfold fileToGenerativePart. cbn [data].
  destruct (file_dataURL f) as [r|].
  - split.
    + intro H. exists r. split; [reflexivity|].
      destruct (includes r ",") eqn:Hi; [|reflexivity].
      apply includes_spec in Hi as (pre & post & ->).
      apply nth_error_None in H.
      pose proof (split_comma_length pre post) as Hl.
      change (pre ++ "," ++ post) with (pre ++ String "," post) in H. lia.
    + intros (r' & E & Hr). inversion E; subst r'.
      rewrite (split_no_comma _ Hr). reflexivity.
  - split; [discriminate | intros (r & E & _); discriminate].
Qed.

(** X3.  When the image gives no usable payload (the reader's result is
    not a string, has no comma, or an empty second part), a submitted run
    fails with "Failed to convert image to base64." before anything is sent:
    the log holds the loading state, the first progress label and the error
    state only, whatever the remote service would answer. *)
Theorem encoding_failure_reported (env : Env) (fuel : nat) (s : Sys)
    (f : File) :
  imageFile (ui s) = Some f ->
  truthy (script (ui s)) = true ->
  apiKeySelected (ui s) = Some true ->
  truthy_opt (data (fileToGenerativePart f)) = false ->
  snd (handleSubmit env fuel s) = Returned tt
  /\ ui (fst (handleSubmit env fuel s))
     = rejected (Error "Failed to convert image to base64.") (ui s)
  /\ generationState (ui (fst (handleSubmit env fuel s))) = gs_error
  /\ error (ui (fst (handleSubmit env fuel s)))
     = Some "Failed to convert image to base64."
  /\ log (fst (handleSubmit env fuel s))
     = (log s ++ [EvSetGenerationState gs_loading;
                  EvProgress "Converting image...";
                  EvSetGenerationState gs_error])%list.
Proof.
  intros Hfile Hscript Hkey Hdata.
  assert (Hrun : generateVideoFromImage env setLoadingMessage fuel
                   (script (ui s)) f (aspectRatio (ui s)) (entered s)
                 = ({| ui := setLoadingMessage "Converting image..."
                               (ui (entered s));
                       log := (log (entered s)
                                 ++ [EvProgress "Converting image..."])%list |},
                    Threw (Error "Failed to convert image to base64."))).
  { unfold generateVideoFromImage.
    destruct (data (fileToGenerativePart f)) as [[|c bytes]|];
      try discriminate; reflexivity. }
  rewrite (handleSubmit_threw env fuel s f Hfile Hscript Hkey _ _ Hrun).
  simpl. rewrite <- !app_assoc. repeat split.
Qed.

Lemma encoding_failure_reported_witness :
  let s := start (setImageFile (Some png_no_comma) ready) in
  let r := handleSubmit (scripted (inr op_finished) resp_ok) 2 s in
  generationState (ui (fst r)) = gs_error
  /\ error (ui (fst r)) = Some "Failed to convert image to base64."
  /\ log (fst r)
     = [EvSetGenerationState gs_loading; EvProgress "Converting image...";
        EvSetGenerationState gs_error].
Proof.
  pose proof (encoding_failure_reported (scripted (inr op_finished) resp_ok) 2
                (start (setImageFile (Some png_no_comma) ready)) png_no_comma
                eq_refl eq_refl eq_refl eq_refl) as (_ & _ & G & E & L).
  split; [exact G|]. split; [exact E | exact L].
Defined.

(* ===================================================================== *)
(** * What a run of the service sends *)

Section EmitsFacts.

Variable P : Event -> Prop.

Lemma Emits_ret {A} (a : A) : Emits P (ret a).
Proof. intro s. exists []. simpl. now rewrite app_nil_r. Qed.

Lemma Emits_throw {A} e : Emits P (@throw A e).
Proof. intro s. exists []. simpl. now rewrite app_nil_r. Qed.

Lemma Emits_pending {A} : Emits P (@pending A).
Proof. intro s. exists []. simpl. now rewrite app_nil_r. Qed.

Lemma Emits_await {A} (r : JsError + A) : Emits P (await r).
Proof. destruct r; [apply Emits_throw | apply Emits_ret]. Qed.

Lemma Emits_update g : Emits P (update g).
Proof. intro s. exists []. simpl. now rewrite app_nil_r. Qed.

Lemma Emits_emit ev : P ev -> Emits P (emit ev).
Proof. intros H s. exists [ev]. simpl. auto. Qed.

Lemma Emits_bind {A B} (c : M A) (k : A -> M B) :
  Emits P c -> (forall a, Emits P (k a)) -> Emits P (bind c k).
Proof.
  intros Hc Hk s. unfold bind. destruct (Hc s) as (l1 & E1 & F1).
  destruct (c s) as [s1 [a | e |]]; simpl in *; eauto.
  destruct (Hk a s1) as (l2 & E2 & F2).
  exists (l1 ++ l2)%list. rewrite E2, E1, app_assoc.
  split; [reflexivity | now apply Forall_app].
Qed.

Lemma Emits_progress onProgress msg :
  P (EvProgress msg) -> Emits P (progress onProgress msg).
Proof.
  intro H. apply Emits_bind; [now apply Emits_emit|].
  intros _. apply Emits_update.
Qed.

End EmitsFacts.

Lemma Emits_impl (P Q : Event -> Prop) {A} (c : M A) :
  (forall ev, P ev -> Q ev) -> Emits P c -> Emits Q c.
Proof.
  intros H Hc s. destruct (Hc s) as (l & E & F).
  exists l. split; [exact E|]. eapply Forall_impl; eassumption.
Qed.

Lemma Emits_pollLoop env onProgress fuel :
  forall k op, Emits pollEventOk (pollLoop env onProgress fuel k op).
Proof.
  induction fuel as [|fuel IH]; intros k op; simpl;
    destruct (done op) eqn:Hd;
    auto using Emits_ret, Emits_pending.
  apply Emits_bind; [now apply Emits_emit|]. intros _.
  apply Emits_bind; [now apply Emits_progress|]. intros _.
  apply Emits_bind; [now apply Emits_emit|]. intros _.
  destruct (getVideosOperation env k op) as [e|op']; [|apply IH].
  destruct (match message e with Some m => _ | None => _ end);
    apply Emits_throw.
Qed.

Lemma Emits_deliver env onProgress op :
  Emits (deliverEventOk env) (deliver env onProgress op).
Proof.
  unfold deliver. destruct (op_error op); [apply Emits_throw|].
  apply Emits_bind; [now apply Emits_progress|]. intros _.
  destruct (downloadLinkOf op) as [[|c link]|]; try apply Emits_throw.
  apply Emits_bind.
  { apply Emits_emit. exists (String c link). split; [discriminate|].
    reflexivity. }
  intros _. apply Emits_bind; [apply Emits_await|]. intros resp.
  destruct (negb (ok resp)); [|apply Emits_ret].
  destruct (includes _ _); apply Emits_throw.
Qed.

Lemma Emits_generateVideoFromImage env onProgress fuel p f a :
  Emits (serviceEventOk env p f a)
        (generateVideoFromImage env onProgress fuel p f a).
Proof.
  unfold generateVideoFromImage.
  apply Emits_bind; [apply Emits_progress; simpl; auto|]. intros _.
  destruct (data (fileToGenerativePart f)) as [[|c bytes]|] eqn:Hdata;
    try apply Emits_throw.
  apply Emits_bind; [apply Emits_progress; simpl; auto|]. intros _.
  apply Emits_bind.
  { apply Emits_emit. exists (String c bytes).
    split; [exact Hdata|]. split; [discriminate | reflexivity]. }
  intros _. apply Emits_bind; [apply Emits_await|]. intros op0.
  apply Emits_bind; [apply Emits_progress; simpl; auto|]. intros _.
  apply Emits_bind.
  - eapply Emits_impl; [|apply Emits_pollLoop].
    intros [msg | ms | | op | | | |]; simpl; try tauto.
    intros ->. auto 6.
  - intros op. eapply Emits_impl; [|apply Emits_deliver].
    intros [msg | | | | url | | |]; simpl; try tauto.
    intros ->. auto 6.
Qed.

(** The events of a submission that passed the guard: the loading state,
    the events of the service, and at most one closing state. *)
Lemma handleSubmit_log (env : Env) (fuel : nat) (s : Sys) (f : File) :
  imageFile (ui s) = Some f ->
  truthy (script (ui s)) = true ->
  apiKeySelected (ui s) = Some true ->
  exists l closing,
    log (fst (handleSubmit env fuel s))
    = (log s ++ EvSetGenerationState gs_loading :: l ++ closing)%list
    /\ Forall (serviceEventOk env (script (ui s)) f (aspectRatio (ui s))) l
    /\ (closing = [] \/ exists g, closing = [EvSetGenerationState g]).
Proof.
  intros Hfile Hscript Hkey.
  destruct (Emits_generateVideoFromImage env setLoadingMessage fuel
              (script (ui s)) f (aspectRatio (ui s)) (entered s))
    as (l & El & Fl).
  destruct (generateVideoFromImage env setLoadingMessage fuel (script (ui s))
              f (aspectRatio (ui s)) (entered s)) as [s2 [url | e |]] eqn:Hrun;
    simpl in El; exists l.
  - rewrite (handleSubmit_returned env fuel s f Hfile Hscript Hkey s2 url Hrun).
    eexists. simpl. rewrite El, <- !app_assoc. simpl. eauto.
  - rewrite (handleSubmit_threw env fuel s f Hfile Hscript Hkey s2 e Hrun).
    eexists. simpl. rewrite El, <- !app_assoc. simpl. eauto.
  - rewrite (handleSubmit_pending env fuel s f Hfile Hscript Hkey s2 Hrun).
    exists []. simpl. rewrite El, <- !app_assoc, app_nil_r. simpl. auto.
Qed.

(** The events of any submission, guard passed or not. *)
Lemma handleSubmit_events (env : Env) (fuel : nat) (u : AppState)
    (ev : Event) :
  In ev (log (fst (handleSubmit env fuel (start u)))) ->
  (exists g, ev = EvSetGenerationState g)
  \/ exists f, imageFile u = Some f
               /\ serviceEventOk env (script u) f (aspectRatio u) ev.
Proof.
  intro Hin.
  destruct (imageFile u) as [f|] eqn:Hfile;
    [|unfold handleSubmit in Hin; simpl in Hin; rewrite Hfile in Hin;
      contradiction].
  destruct (truthy (script u)) eqn:Hscript;
    [|unfold handleSubmit in Hin; simpl in Hin;
      rewrite Hfile, Hscript in Hin; contradiction].
  destruct (apiKeySelected u) as [[|]|] eqn:Hkey;
    try (unfold handleSubmit in Hin; simpl in Hin;
         rewrite Hfile, Hscript, Hkey in Hin; contradiction).
  destruct (handleSubmit_log env fuel (start u) f Hfile Hscript Hkey)
    as (l & closing & E & F & C).
  rewrite E in Hin. simpl in Hin.
  destruct Hin as [<- | Hin]; [eauto|].
  apply in_app_or in Hin as [Hin | Hin].
  - right. exists f. split; [reflexivity|].
    rewrite Forall_forall in F. auto.
  - destruct C as [-> | (g & ->)]; [contradiction|].
    destruct Hin as [<- | []]. eauto.
Qed.

(** X4.  Every request a submission sends to [generateVideos] asks the
    model "veo-3.1-fast-generate-preview" for exactly one video at 720p,
    with the script as the prompt, the selected aspect ratio, the file's
    MIME type and the non-empty payload of the image. *)
Theorem request_shape (env : Env) (fuel : nat) (u : AppState)
    (req : GenerateVideosParameters) :
  In (EvGenerateVideos req) (log (fst (handleSubmit env fuel (start u)))) ->
  model req = "veo-3.1-fast-generate-preview"
  /\ numberOfVideos (config req) = 1%Z
  /\ resolution (config req) = "720p"
  /\ prompt req = script u
  /\ cfg_aspectRatio (config req) = aspectRatio u
  /\ imageBytes (image req) <> ""
  /\ exists f, imageFile u = Some f
               /\ image_mimeType (image req) = file_type f
               /\ data (fileToGenerativePart f) = Some (imageBytes (image req)).
Proof.
  intro Hin. apply handleSubmit_events in Hin as [(g & E) | (f & Hf & H)];
    [discriminate|].
  destruct H as (bytes & Hdata & Hne & ->). simpl.
  repeat split; auto. exists f. auto.
Qed.

Lemma request_shape_witness :
  exists req,
    In (EvGenerateVideos req)
       (log (fst (handleSubmit (scripted (inr op_finished) resp_ok) 2
                    (start ready))))
    /\ numberOfVideos (config req) = 1%Z
    /\ resolution (config req) = "720p"
    /\ prompt req = script ready.
Proof.
  exists (videoRequest (script ready) "/9j/4AAQ" "image/jpeg" ar_16_9).
  assert (Hin : In (EvGenerateVideos
                      (videoRequest (script ready) "/9j/4AAQ" "image/jpeg"
                         ar_16_9))
                   (log (fst (handleSubmit
                                (scripted (inr op_finished) resp_ok) 2
                                (start ready)))))
    by (vm_compute; tauto).
  split; [exact Hin|].
  pose proof (request_shape _ _ _ _ Hin) as (_ & N & R & Pr & _).
  split; [exact N|]. split; [exact R | exact Pr].
Defined.

(** A loop that returns has followed the service to a done operation. *)
Lemma pollLoop_returned_PollsTo env onProgress fuel :
  forall k op s s' op',
    pollLoop env onProgress fuel k op s = (s', Returned op') ->
    exists n, n <= fuel /\ PollsTo env n k op op' /\ done op' = true.
Proof.
  induction fuel as [|fuel IH]; intros k op s s' op' H.
  - simpl in H. destruct (done op) eqn:Hd; inversion H; subst.
    exists 0. split; [lia|]. split; [constructor | assumption].
  - destruct (done op) eqn:Hd.
    + rewrite pollLoop_done in H by assumption. inversion H; subst.
      exists 0. split; [lia|]. split; [constructor | assumption].
    + destruct (getVideosOperation env k op) as [e|op1] eqn:Hq.
      * rewrite (pollLoop_fail _ _ _ _ _ e) in H by assumption. discriminate.
      * rewrite (pollLoop_next _ _ _ _ _ op1) in H by assumption.
        destruct (IH _ _ _ _ _ H) as (n & Hn & Hp & Hdone).
        exists (S n). split; [lia|]. split; [|assumption].
        econstructor; eassumption.
Qed.

(** The only download of [deliver] goes to the operation's own link. *)
Lemma deliver_fetch env onProgress op s url :
  In (EvFetch url) (log (fst (deliver env onProgress op s))) ->
  In (EvFetch url) (log s)
  \/ (op_error op = None
      /\ exists link,
           downloadLinkOf op = Some link /\ link <> ""
           /\ url = link ++ "&key=" ++ template (API_KEY env)).
Proof.
  unfold deliver. destruct (op_error op); [auto|].
  unfold bind at 1. simpl.
  destruct (downloadLinkOf op) as [[|c link]|]; simpl;
    try (intro H; apply in_app_or in H as [H | [H | []]];
         [auto | discriminate]).
  unfold bind at 1 2. simpl.
  assert (Hlog : In (EvFetch url)
                   ((log s ++ [EvProgress "Finalizing video..."])
                      ++ [EvFetch (String c link ++ "&key="
                                     ++ template (API_KEY env))])%list ->
                 In (EvFetch url) (log s)
                 \/ (@None OperationError = None
                     /\ exists link0,
                          Some (String c link) = Some link0 /\ link0 <> ""
                          /\ url = link0 ++ "&key="
                                     ++ template (API_KEY env))).
  { intro H. apply in_app_or in H as [H | [H | []]].
    - apply in_app_or in H as [H | [H | []]]; [auto | discriminate].
    - right. split; [reflexivity|]. exists (String c link).
      split; [reflexivity|]. split; [discriminate|]. now inversion H. }
  destruct (fetch env _) as [e|resp]; simpl; [exact Hlog|].
  destruct (negb (ok resp)); [|exact Hlog].
  destruct (includes _ _); exact Hlog.
Qed.

(** The only download of the service follows a loop that exited. *)
Lemma generateVideoFromImage_fetch env onProgress fuel p f a s url :
  In (EvFetch url)
     (log (fst (generateVideoFromImage env onProgress fuel p f a s))) ->
  In (EvFetch url) (log s)
  \/ exists n op link,
       n <= fuel /\ LoopExits env p f a n op /\ op_error op = None
       /\ downloadLinkOf op = Some link /\ link <> ""
       /\ url = link ++ "&key=" ++ template (API_KEY env).
Proof.
  unfold generateVideoFromImage.
  destruct (data (fileToGenerativePart f)) as [[|c bytes]|] eqn:Hdata;
    try (unfold bind at 1; simpl; intro H;
         apply in_app_or in H as [H | [H | []]]; [auto | discriminate]).
  change (mimeType (fileToGenerativePart f)) with (file_type f).
  cbv zeta. unfold bind at 1 2 3 4. simpl.
  destruct (generateVideos env _) as [e|op0] eqn:Hgen; simpl.
  { rewrite <- !app_assoc. simpl. intro H.
    apply in_app_or in H as [H | H]; [auto|].
    simpl in H. intuition discriminate. }
  unfold bind at 1 2. simpl.
  match goal with
  | |- context [pollLoop env onProgress fuel 0 op0 ?s1] => set (s1' := s1)
  end.
  assert (Hs1 : In (EvFetch url) (log s1') -> In (EvFetch url) (log s)).
  { subst s1'. simpl. rewrite <- !app_assoc. simpl. intro H.
    apply in_app_or in H as [H | H]; [auto|].
    simpl in H. intuition discriminate. }
  destruct (Emits_pollLoop env onProgress fuel 0 op0 s1') as (l & El & Fl).
  assert (Hs2 : In (EvFetch url)
                  (log (fst (pollLoop env onProgress fuel 0 op0 s1'))) ->
                In (EvFetch url) (log s)).
  { rewrite El. intro H. apply in_app_or in H as [H | H]; [auto|].
    rewrite Forall_forall in Fl. apply Fl in H. contradiction. }
  destruct (pollLoop env onProgress fuel 0 op0 s1') as [s2 [op | e |]] eqn:Hloop;
    simpl in Hs2; auto.
  intro H. apply deliver_fetch in H as [H | (He & link & Hl & Hne & Hu)];
    [auto|].
  destruct (pollLoop_returned_PollsTo _ _ _ _ _ _ _ _ Hloop)
    as (n & Hn & Hp & Hdone).
  right. exists n, op, link. repeat split; auto.
  exists op0. split; [|split; assumption].
  exists (String c bytes). repeat split; assumption.
Qed.

(** X5.  Every download a submission makes follows a poll loop that exited
    with an operation marked done and without error payload, and goes to
    that operation's own result link (non-empty) with "&key=" and the API
    key appended. *)
Theorem fetch_carries_key (env : Env) (fuel : nat) (u : AppState)
    (url : string) :
  In (EvFetch url) (log (fst (handleSubmit env fuel (start u)))) ->
  exists f n op link,
    imageFile u = Some f
    /\ n <= fuel
    /\ LoopExits env (script u) f (aspectRatio u) n op
    /\ op_error op = None
    /\ downloadLinkOf op = Some link
    /\ link <> ""
    /\ url = link ++ "&key=" ++ template (API_KEY env).
Proof.
  intro Hin.
  destruct (imageFile u) as [f|] eqn:Hfile;
    [|unfold handleSubmit in Hin; simpl in Hin; rewrite Hfile in Hin;
      contradiction].
  destruct (truthy (script u)) eqn:Hscript;
    [|unfold handleSubmit in Hin; simpl in Hin;
      rewrite Hfile, Hscript in Hin; contradiction].
  destruct (apiKeySelected u) as [[|]|] eqn:Hkey;
    try (unfold handleSubmit in Hin; simpl in Hin;
         rewrite Hfile, Hscript, Hkey in Hin; contradiction).
  pose proof (generateVideoFromImage_fetch env setLoadingMessage fuel
                (script u) f (aspectRatio u) (entered (start u)) url) as Hsvc.
  assert (Hlog : In (EvFetch url)
                   (log (fst (generateVideoFromImage env setLoadingMessage
                                fuel (script u) f (aspectRatio u)
                                (entered (start u)))))).
  { destruct (generateVideoFromImage env setLoadingMessage fuel (script u) f
                (aspectRatio u) (entered (start u)))
      as [s2 [v | e |]] eqn:Hrun; simpl.
    - rewrite (handleSubmit_returned env fuel (start u) f Hfile Hscript Hkey
                 s2 v Hrun) in Hin.
      simpl in Hin. apply in_app_or in Hin as [Hin | [Hin | []]];
        [exact Hin | discriminate].
    - rewrite (handleSubmit_threw env fuel (start u) f Hfile Hscript Hkey
                 s2 e Hrun) in Hin.
      simpl in Hin. apply in_app_or in Hin as [Hin | [Hin | []]];
        [exact Hin | discriminate].
    - rewrite (handleSubmit_pending env fuel (start u) f Hfile Hscript Hkey
                 s2 Hrun) in Hin.
      exact Hin. }
  destruct (Hsvc Hlog) as [H | (n & op & link & H)].
  - simpl in H. intuition discriminate.
  - exists f, n, op, link. split; [reflexivity | exact H].
Qed.

Lemma fetch_carries_key_witness :
  In (EvFetch "https://dl/video?alt=media&key=k")
     (log (fst (handleSubmit (scripted (inr op_finished) resp_ok) 2
                  (start ready))))
  /\ exists f n op link,
       imageFile ready = Some f
       /\ n <= 2
       /\ LoopExits (scripted (inr op_finished) resp_ok) (script ready) f
            (aspectRatio ready) n op
       /\ op_error op = None
       /\ downloadLinkOf op = Some link
       /\ link <> ""
       /\ "https://dl/video?alt=media&key=k"
          = link ++ "&key=" ++ template (Some "k").
Proof.
  assert (Hin : In (EvFetch "https://dl/video?alt=media&key=k")
                   (log (fst (handleSubmit
                                (scripted (inr op_finished) resp_ok) 2
                                (start ready)))))
    by (vm_compute; tauto).
  split; [exact Hin|].
  exact (fetch_carries_key _ _ _ _ Hin).
Defined.

(** X6.  An operation seen done is never polled again: every status query
    of a submission is asked with an operation that is not marked done, and
    every timer it awaits is one of 10000 ms. *)
Theorem never_repolls_done (env : Env) (fuel : nat) (u : AppState) :
  (forall op,
      In (EvGetVideosOperation op)
         (log (fst (handleSubmit env fuel (start u)))) ->
      done op = false)
  /\ (forall ms,
         In (EvSetTimeout ms)
            (log (fst (handleSubmit env fuel (start u)))) ->
         ms = 10000%Z).
Proof.
  split; intros x Hin;
    apply handleSubmit_events in Hin as [(g & E) | (f & Hf & H)];
    solve [discriminate | exact H].
Qed.

Lemma never_repolls_done_witness :
  In (EvGetVideosOperation op_running)
     (log (fst (handleSubmit (scripted (inr op_finished) resp_ok) 2
                  (start ready))))
  /\ done op_running = false.
Proof.
  assert (Hin : In (EvGetVideosOperation op_running)
                   (log (fst (handleSubmit
                                (scripted (inr op_finished) resp_ok) 2
                                (start ready)))))
    by (vm_compute; tauto).
  split; [exact Hin|].
  exact (proj1 (never_repolls_done _ _ _) op_running Hin).
Defined.

(* ===================================================================== *)
(** * Failures of the remote calls, and success *)

Lemma handleSubmit_outcome (env : Env) (fuel : nat) (s : Sys) (f : File)
    (e : JsError) :
  imageFile (ui s) = Some f ->
  truthy (script (ui s)) = true ->
  apiKeySelected (ui s) = Some true ->
  (forall s0,
      snd (generateVideoFromImage env setLoadingMessage fuel (script (ui s)) f
             (aspectRatio (ui s)) s0) = Threw e) ->
  snd (handleSubmit env fuel s) = Returned tt
  /\ ui (fst (handleSubmit env fuel s)) = rejected e (ui s).
Proof.
  intros Hfile Hscript Hkey Hout. specialize (Hout (entered s)).
  destruct (generateVideoFromImage env setLoadingMessage fuel (script (ui s))
              f (aspectRatio (ui s)) (entered s)) as [s2 out] eqn:Hrun.
  simpl in Hout. subst out.
  rewrite (handleSubmit_threw env fuel s f Hfile Hscript Hkey s2 _ Hrun).
  split; reflexivity.
Qed.

(** X7.  When [generateVideos] rejects, the error is thrown on unchanged,
    no status query and no download is made, and the page shows the
    rejection by the rule of the catch clause: the key-selection state when
    its message is exactly "API_KEY_ERROR", otherwise the error state with
    the rejection's message. *)
Theorem submit_rejection_propagates (env : Env) (fuel : nat) (s : Sys)
    (f : File) (bytes : string) (e : JsError) :
  imageFile (ui s) = Some f ->
  truthy (script (ui s)) = true ->
  apiKeySelected (ui s) = Some true ->
  data (fileToGenerativePart f) = Some bytes -> truthy bytes = true ->
  generateVideos env
    (videoRequest (script (ui s)) bytes (file_type f) (aspectRatio (ui s)))
  = inl e ->
  (forall s0,
      snd (generateVideoFromImage env setLoadingMessage fuel (script (ui s)) f
             (aspectRatio (ui s)) s0) = Threw e)
  /\ snd (handleSubmit env fuel s) = Returned tt
  /\ ui (fst (handleSubmit env fuel s)) = rejected e (ui s)
  /\ log (fst (handleSubmit env fuel s))
     = (log s
          ++ [EvSetGenerationState gs_loading;
              EvProgress "Converting image...";
              EvProgress "Starting video generation...";
              EvGenerateVideos
                (videoRequest (script (ui s)) bytes (file_type f)
                   (aspectRatio (ui s)));
              EvSetGenerationState
                (if is_API_KEY_ERROR e then gs_selecting_key
                 else gs_error)])%list.
Proof.
  intros Hfile Hscript Hkey Hdata Hne Hgen.
  assert (Hrun : forall s0,
             generateVideoFromImage env setLoadingMessage fuel
               (script (ui s)) f (aspectRatio (ui s)) s0
             = ({| ui := setLoadingMessage "Starting video generation..."
                           (setLoadingMessage "Converting image..." (ui s0));
                   log := (log s0
                             ++ [EvProgress "Converting image...";
                                 EvProgress "Starting video generation...";
                                 EvGenerateVideos
                                   (videoRequest (script (ui s)) bytes
                                      (file_type f) (aspectRatio (ui s)))])%list
                |}, Threw e)).
  { intro s0. unfold generateVideoFromImage.
    destruct bytes as [|c bytes]; [discriminate|]. rewrite Hdata.
    change (mimeType (fileToGenerativePart f)) with (file_type f).
    cbv zeta. rewrite Hgen. unfold bind at 1 2 3 4. simpl.
    rewrite <- !app_assoc. reflexivity. }
  split; [intro s0; rewrite Hrun; reflexivity|].
  rewrite (handleSubmit_threw env fuel s f Hfile Hscript Hkey _ _
             (Hrun (entered s))).
  simpl. rewrite <- !app_assoc. repeat split.
Qed.

Lemma submit_rejection_propagates_witness :
  let r := handleSubmit env_down 2 (start ready) in
  snd r = Returned tt
  /\ ui (fst r) = rejected (Error "503 Service Unavailable") ready
  /\ generationState (ui (fst r)) = gs_error
  /\ error (ui (fst r)) = Some "503 Service Unavailable"
  /\ queriesOf (log (fst r)) = [].
Proof.
  pose proof (submit_rejection_propagates env_down 2 (start ready) jpeg
                "/9j/4AAQ" (Error "503 Service Unavailable")
                eq_refl eq_refl eq_refl eq_refl eq_refl eq_refl)
    as (_ & R & U & L).
  split; [exact R|]. split; [exact U|]. rewrite U, L.
  split; [reflexivity|]. split; reflexivity.
Defined.

(** X8.  A failed status query whose message lacks "Requested entity was
    not found" (or that has no message) is thrown on unchanged, and the page
    shows it by the rule of the catch clause. *)
Theorem poll_failure_propagates (env : Env) (fuel : nat) (s : Sys)
    (f : File) (n : nat) (op : Operation) (e : JsError) :
  imageFile (ui s) = Some f ->
  truthy (script (ui s)) = true ->
  apiKeySelected (ui s) = Some true ->
  PollFails env (script (ui s)) f (aspectRatio (ui s)) n op e ->
  (forall m, message e = Some m ->
             includes m "Requested entity was not found" = false) ->
  n < fuel ->
  (forall s0,
      snd (generateVideoFromImage env setLoadingMessage fuel (script (ui s)) f
             (aspectRatio (ui s)) s0) = Threw e)
  /\ snd (handleSubmit env fuel s) = Returned tt
  /\ ui (fst (handleSubmit env fuel s)) = rejected e (ui s).
Proof.
  intros Hfile Hscript Hkey Hfail Hm Hfuel.
  assert (Hre : rethrown e = e).
  { unfold rethrown. destruct (message e) as [m|]; [|reflexivity].
    rewrite (Hm m eq_refl). reflexivity. }
  assert (Hout : forall s0,
             snd (generateVideoFromImage env setLoadingMessage fuel
                    (script (ui s)) f (aspectRatio (ui s)) s0) = Threw e).
  { intro s0.
    destruct (generateVideoFromImage_PollFails env setLoadingMessage _ _ _ _ _
                _ fuel s0 Hfail Hfuel) as (s1 & E & _).
    rewrite E, Hre. reflexivity. }
  split; [exact Hout|].
  now apply (handleSubmit_outcome env fuel s f e).
Qed.

Lemma poll_failure_propagates_witness :
  let r := handleSubmit (scripted (inl (Error "Model not found")) resp_ok) 2
             (start ready) in
  snd r = Returned tt
  /\ ui (fst r) = rejected (Error "Model not found") ready.
Proof.
  refine (proj2 (poll_failure_propagates
                   (scripted (inl (Error "Model not found")) resp_ok) 2
                   (start ready) jpeg 1 op_running (Error "Model not found")
                   eq_refl eq_refl eq_refl (PollFails_scripted _ _) _ _));
    [|lia].
  intros m E. inversion E. reflexivity.
Defined.

(** X9.  When the download itself rejects (the [fetch] promise, not a
    non-success response), the rejection is thrown on unchanged and shown by
    the rule of the catch clause. *)
Theorem fetch_rejection_propagates (env : Env) (fuel : nat) (s : Sys)
    (f : File) (n : nat) (op : Operation) (link : string) (e : JsError) :
  imageFile (ui s) = Some f ->
  truthy (script (ui s)) = true ->
  apiKeySelected (ui s) = Some true ->
  LoopExits env (script (ui s)) f (aspectRatio (ui s)) n op -> n <= fuel ->
  op_error op = None ->
  downloadLinkOf op = Some link -> truthy link = true ->
  fetch env (link ++ "&key=" ++ template (API_KEY env)) = inl e ->
  (forall s0,
      snd (generateVideoFromImage env setLoadingMessage fuel (script (ui s)) f
             (aspectRatio (ui s)) s0) = Threw e)
  /\ snd (handleSubmit env fuel s) = Returned tt
  /\ ui (fst (handleSubmit env fuel s)) = rejected e (ui s).
Proof.
  intros Hfile Hscript Hkey Hexit Hfuel He Hl Hne Hf.
  assert (Hout : forall s0,
             snd (generateVideoFromImage env setLoadingMessage fuel
                    (script (ui s)) f (aspectRatio (ui s)) s0) = Threw e).
  { intro s0.
    destruct (generateVideoFromImage_LoopExits env setLoadingMessage _ _ _ _ _
                fuel s0 Hexit Hfuel) as (s1 & E & _).
    rewrite E. unfold deliver. rewrite He, Hl.
    destruct link as [|c link]; [discriminate|].
    unfold bind at 1 2 3. simpl. simpl in Hf. rewrite Hf. reflexivity. }
  split; [exact Hout|].
  now apply (handleSubmit_outcome env fuel s f e).
Qed.

Lemma LoopExits_offline :
  LoopExits env_offline (script ready) jpeg ar_16_9 2 op_finished.
Proof.
  exists op_running. split; [|split].
  - exists "/9j/4AAQ". repeat split.
  - eapply PollsTo_S; [reflexivity | reflexivity |].
    eapply PollsTo_S; [reflexivity | reflexivity |]. apply PollsTo_O.
  - reflexivity.
Qed.

Lemma fetch_rejection_propagates_witness :
  let r := handleSubmit env_offline 2 (start ready) in
  snd r = Returned tt
  /\ ui (fst r) = rejected (Error "Failed to fetch") ready.
Proof.
  refine (proj2 (fetch_rejection_propagates env_offline 2 (start ready) jpeg
                   2 op_finished "https://dl/video?alt=media"
                   (Error "Failed to fetch") _ _ _ _ _ _ _ _ _));
    solve [reflexivity | lia | apply LoopExits_offline].
Defined.

(** X10.  A submitted run whose loop exits with the operation done, no
    error payload and a non-empty result link, and whose download is answered
    with a success response: the pipeline returns the object URL made of the
    response's blob, and the page ends in the success state with that URL,
    no error message and an empty loading message, the image, the script and
    the aspect ratio as they were. *)
Theorem successful_run (env : Env) (fuel : nat) (s : Sys) (f : File)
    (n : nat) (op : Operation) (link : string) (resp : Response) :
  imageFile (ui s) = Some f ->
  truthy (script (ui s)) = true ->
  apiKeySelected (ui s) = Some true ->
  LoopExits env (script (ui s)) f (aspectRatio (ui s)) n op -> n <= fuel ->
  op_error op = None ->
  downloadLinkOf op = Some link -> truthy link = true ->
  fetch env (link ++ "&key=" ++ template (API_KEY env)) = inr resp ->
  ok resp = true ->
  (forall s0,
      snd (generateVideoFromImage env setLoadingMessage fuel (script (ui s)) f
             (aspectRatio (ui s)) s0)
      = Returned (createObjectURL env (blob resp)))
  /\ snd (handleSubmit env fuel s) = Returned tt
  /\ ui (fst (handleSubmit env fuel s))
     = fulfilled (createObjectURL env (blob resp)) (ui s)
  /\ last (log (fst (handleSubmit env fuel s))) EvOpenSelectKey
     = EvSetGenerationState gs_success.
Proof.
  intros Hfile Hscript Hkey Hexit Hfuel He Hl Hne Hf Hok.
  assert (Hout : forall s0,
             snd (generateVideoFromImage env setLoadingMessage fuel
                    (script (ui s)) f (aspectRatio (ui s)) s0)
             = Returned (createObjectURL env (blob resp))).
  { intro s0.
    destruct (generateVideoFromImage_LoopExits env setLoadingMessage _ _ _ _ _
                fuel s0 Hexit Hfuel) as (s1 & E & _).
    rewrite E. unfold deliver. rewrite He, Hl.
    destruct link as [|c link]; [discriminate|].
    unfold bind at 1 2 3. simpl. simpl in Hf. rewrite Hf. simpl.
    rewrite Hok. reflexivity. }
  split; [exact Hout|].
  specialize (Hout (entered s)).
  destruct (generateVideoFromImage env setLoadingMessage fuel (script (ui s))
              f (aspectRatio (ui s)) (entered s)) as [s2 out] eqn:Hrun.
  simpl in Hout. subst out.
  rewrite (handleSubmit_returned env fuel s f Hfile Hscript Hkey s2 _ Hrun).
  simpl. rewrite last_last. repeat split.
Qed.

Lemma successful_run_witness :
  let r := handleSubmit (scripted (inr op_finished) resp_ok) 2 (start ready) in
  snd r = Returned tt
  /\ ui (fst r) = fulfilled "blob:mp4-bytes" ready
  /\ last (log (fst r)) EvOpenSelectKey = EvSetGenerationState gs_success.
Proof.
  refine (proj2 (successful_run (scripted (inr op_finished) resp_ok) 2
                   (start ready) jpeg 2 op_finished
                   "https://dl/video?alt=media" resp_ok
                   _ _ _ _ _ _ _ _ _ _));
    solve [reflexivity | lia | now apply LoopExits_scripted].
Defined.

(* ===================================================================== *)
(** * The page after and during a run *)

Lemma deliver_settles env onProgress op s :
  snd (deliver env onProgress op s) <> Pending.
Proof.
  unfold deliver. destruct (op_error op); [discriminate|].
  unfold bind at 1. simpl.
  destruct (downloadLinkOf op) as [[|c link]|]; try discriminate.
  unfold bind at 1 2. simpl.
  destruct (fetch env _) as [e|resp]; simpl; [discriminate|].
  destruct (negb (ok resp)); [|discriminate].
  destruct (includes _ _); discriminate.
Qed.

Lemma messageOr_truthy (e : JsError) : truthy (messageOr e) = true.
Proof.
  unfold messageOr. destruct (message e) as [[|c m]|]; reflexivity.
Qed.

Lemma busy_page_disabled (st : AppState) (a : Action) :
  isGenerating st = true -> apiKeySelected st = Some true ->
  enabled a st = false.
Proof.
  intros Hg Hk.
  destruct a; unfold enabled, submitClickable, submitDisabled, isFormDisabled,
    resetRendered, selectorRendered, formRendered;
    rewrite ?Hg, ?Hk; simpl; rewrite ?orb_true_r; try reflexivity.
  unfold isGenerating in Hg.
  destruct (generationState st); simpl in *; try discriminate; reflexivity.
Qed.

(** X11.  When the service answers the request with an operation already
    marked done, the run awaits no timer and asks no status query, and it
    settles without any iteration of the loop. *)
Theorem done_at_once_skips_polling (env : Env) (fuel : nat) (u : AppState)
    (f : File) (op0 : Operation) :
  imageFile u = Some f ->
  truthy (script u) = true ->
  apiKeySelected u = Some true ->
  Submitted env (script u) f (aspectRatio u) op0 ->
  done op0 = true ->
  snd (handleSubmit env fuel (start u)) = Returned tt
  /\ (forall op, ~ In (EvGetVideosOperation op)
                     (log (fst (handleSubmit env fuel (start u)))))
  /\ (forall ms, ~ In (EvSetTimeout ms)
                     (log (fst (handleSubmit env fuel (start u))))).
Proof.
  intros Hfile Hscript Hkey (bytes & Hdata & Hne & Hgen) Hdone.
  pose (s1 := {| ui := setLoadingMessage
                         "Processing your video... this may take a few minutes."
                         (setLoadingMessage "Starting video generation..."
                            (setLoadingMessage "Converting image..."
                               (ui (entered (start u)))));
                 log := [EvSetGenerationState gs_loading;
                         EvProgress "Converting image...";
                         EvProgress "Starting video generation...";
                         EvGenerateVideos
                           (videoRequest (script u) bytes (file_type f)
                              (aspectRatio u));
                         EvProgress
                           "Processing your video... this may take a few minutes."]
              |}).
  assert (Hrun : generateVideoFromImage env setLoadingMessage fuel (script u) f
                   (aspectRatio u) (entered (start u))
                 = deliver env setLoadingMessage op0 s1).
  { unfold generateVideoFromImage.
    destruct bytes as [|c bytes]; [discriminate|]. rewrite Hdata.
    change (mimeType (fileToGenerativePart f)) with (file_type f).
    cbv zeta. rewrite Hgen. unfold bind at 1 2 3 4 5. simpl.
    unfold bind at 1. rewrite pollLoop_done by assumption. reflexivity. }
  destruct (Emits_deliver env setLoadingMessage op0 s1) as (l & El & Fl).
  pose proof (deliver_settles env setLoadingMessage op0 s1) as Hset.
  assert (Hl : forall ev, In ev l ->
                 (forall op, ev <> EvGetVideosOperation op)
                 /\ (forall ms, ev <> EvSetTimeout ms)).
  { intros ev Hin. rewrite Forall_forall in Fl. specialize (Fl ev Hin).
    destruct ev; simpl in Fl; try contradiction; split; discriminate. }
  destruct (deliver env setLoadingMessage op0 s1) as [s2 [url | e |]] eqn:Hd;
    [| |contradiction]; simpl in El.
  - rewrite (handleSubmit_returned env fuel (start u) f Hfile Hscript Hkey s2
               url (eq_trans Hrun eq_refl)).
    simpl. rewrite El. split; [reflexivity|].
    split; intros x Hin; apply in_app_or in Hin as [Hin | Hin];
      try (simpl in Hin; intuition discriminate);
      simpl in Hin;
      repeat (destruct Hin as [Hin | Hin]; [discriminate|]);
      apply Hl in Hin; [now apply (proj1 Hin x) | now apply (proj2 Hin x)].
  - rewrite (handleSubmit_threw env fuel (start u) f Hfile Hscript Hkey s2
               e (eq_trans Hrun eq_refl)).
    simpl. rewrite El. split; [reflexivity|].
    split; intros x Hin; apply in_app_or in Hin as [Hin | Hin];
      try (simpl in Hin; intuition discriminate);
      simpl in Hin;
      repeat (destruct Hin as [Hin | Hin]; [discriminate|]);
      apply Hl in Hin; [now apply (proj1 Hin x) | now apply (proj2 Hin x)].
Qed.

Lemma done_at_once_skips_polling_witness :
  let r := handleSubmit env_done_at_once 0 (start ready) in
  snd r = Returned tt
  /\ (forall op, ~ In (EvGetVideosOperation op) (log (fst r)))
  /\ (forall ms, ~ In (EvSetTimeout ms) (log (fst r))).
Proof.
  refine (done_at_once_skips_polling env_done_at_once 0 ready jpeg op_finished
            eq_refl eq_refl eq_refl _ eq_refl).
  exists "/9j/4AAQ". repeat split.
Defined.

(** The three ways a submission that passed the guard can leave the page. *)
Lemma handleSubmit_page (env : Env) (fuel : nat) (s : Sys) (f : File) :
  imageFile (ui s) = Some f ->
  truthy (script (ui s)) = true ->
  apiKeySelected (ui s) = Some true ->
  (snd (handleSubmit env fuel s) = Returned tt
   /\ exists url, ui (fst (handleSubmit env fuel s)) = fulfilled url (ui s))
  \/ (snd (handleSubmit env fuel s) = Returned tt
      /\ exists e, ui (fst (handleSubmit env fuel s)) = rejected e (ui s))
  \/ (snd (handleSubmit env fuel s) = Pending
      /\ setLoadingMessage "" (ui (fst (handleSubmit env fuel s)))
         = setLoadingMessage "" (ui (entered s))).
Proof.
  intros Hfile Hscript Hkey.
  pose proof (service_fields env fuel s f) as Hfields.
  destruct (generateVideoFromImage env setLoadingMessage fuel (script (ui s))
              f (aspectRatio (ui s)) (entered s)) as [s2 [url | e |]] eqn:Hrun.
  - left.
    rewrite (handleSubmit_returned env fuel s f Hfile Hscript Hkey s2 url Hrun).
    split; [reflexivity | eexists; reflexivity].
  - right; left.
    rewrite (handleSubmit_threw env fuel s f Hfile Hscript Hkey s2 e Hrun).
    split; [reflexivity | eexists; reflexivity].
  - right; right.
    rewrite (handleSubmit_pending env fuel s f Hfile Hscript Hkey s2 Hrun).
    split; [reflexivity|]. exact (Hfields s2 Pending eq_refl).
Qed.

(** X12.  Whenever a submission leaves the page in the error state, the
    error message is set and not empty (a thrown value without message shows
    "An unknown error occurred."), so the error panel with its "Try Again"
    button is rendered. *)
Theorem error_state_offers_retry (env : Env) (fuel : nat) (s : Sys)
    (f : File) :
  imageFile (ui s) = Some f ->
  truthy (script (ui s)) = true ->
  apiKeySelected (ui s) = Some true ->
  generationState (ui (fst (handleSubmit env fuel s))) = gs_error ->
  (exists msg,
      error (ui (fst (handleSubmit env fuel s))) = Some msg /\ msg <> "")
  /\ resetRendered (ui (fst (handleSubmit env fuel s))) = true.
Proof.
  intros Hfile Hscript Hkey Hst.
  destruct (handleSubmit_page env fuel s f Hfile Hscript Hkey)
    as [(_ & url & E) | [(_ & e & E) | (_ & E)]].
  - rewrite E in Hst. discriminate.
  - rewrite E in *. unfold rejected in *. simpl in *.
    destruct (is_API_KEY_ERROR e); [discriminate|].
    pose proof (messageOr_truthy e) as Hm. split.
    + exists (messageOr e). split; [reflexivity|].
      intro H0. rewrite H0 in Hm. discriminate.
    + unfold resetRendered, formRendered. simpl. rewrite Hkey, Hm. reflexivity.
  - apply (f_equal generationState) in E. simpl in E. congruence.
Qed.

Lemma error_state_offers_retry_witness :
  let r := handleSubmit
             (scripted (inl {| message := None |}) resp_ok) 2 (start ready) in
  generationState (ui (fst r)) = gs_error
  /\ error (ui (fst r)) = Some "An unknown error occurred."
  /\ resetRendered (ui (fst r)) = true.
Proof.
  pose proof (error_state_offers_retry
                (scripted (inl {| message := None |}) resp_ok) 2 (start ready)
                jpeg eq_refl eq_refl eq_refl eq_refl) as (_ & R).
  split; [reflexivity|]. split; [reflexivity | exact R].
Defined.

(** X13.  After a submission that passed the guard has settled: the image,
    its preview, the script and the aspect ratio are as before, the loading
    message is empty, a video URL is set exactly in the success state (a
    video of an earlier run is gone otherwise), an error message is set
    exactly outside the success state, and the credential flag is still
    [true] unless the page went to the key-selection state. *)
Theorem settled_run_page (env : Env) (fuel : nat) (s : Sys) (f : File) :
  imageFile (ui s) = Some f ->
  truthy (script (ui s)) = true ->
  apiKeySelected (ui s) = Some true ->
  snd (handleSubmit env fuel s) = Returned tt ->
  let st := ui (fst (handleSubmit env fuel s)) in
  imageFile st = imageFile (ui s)
  /\ imagePreview st = imagePreview (ui s)
  /\ script st = script (ui s)
  /\ aspectRatio st = aspectRatio (ui s)
  /\ loadingMessage st = ""
  /\ (videoUrl st <> None <-> generationState st = gs_success)
  /\ (error st = None <-> generationState st = gs_success)
  /\ (generationState st = gs_success \/ generationState st = gs_error
      \/ generationState st = gs_selecting_key)
  /\ (apiKeySelected st = Some false <-> generationState st = gs_selecting_key)
  /\ (apiKeySelected st = Some true <-> generationState st <> gs_selecting_key).
Proof.
  intros Hfile Hscript Hkey Hret st. subst st.
  destruct (handleSubmit_page env fuel s f Hfile Hscript Hkey)
    as [(_ & url & E) | [(_ & e & E) | (Hp & _)]]; [| |congruence];
    rewrite E; unfold fulfilled, rejected; simpl.
  - rewrite Hkey. repeat split; auto; try discriminate; try congruence.
  - rewrite Hkey. destruct (is_API_KEY_ERROR e); simpl;
      repeat split; auto; try discriminate; try congruence.
Qed.

Lemma settled_run_page_witness :
  let s := start (setVideoUrl (Some "blob:old") ready) in
  let st := ui (fst (handleSubmit (scripted (inr op_failed) resp_ok) 2 s)) in
  videoUrl (ui s) = Some "blob:old"
  /\ videoUrl st = None
  /\ generationState st = gs_error
  /\ imageFile st = Some jpeg
  /\ loadingMessage st = "".
Proof.
  pose proof (settled_run_page (scripted (inr op_failed) resp_ok) 2
                (start (setVideoUrl (Some "blob:old") ready)) jpeg
                eq_refl eq_refl eq_refl eq_refl) as (I & _ & _ & _ & L & _).
  split; [reflexivity|]. split; [reflexivity|]. split; [reflexivity|].
  split; [exact I | exact L].
Defined.

Lemma pollLoop_pending_label env fuel :
  forall k op s,
    In (loadingMessage (ui s)) waitingLabels ->
    snd (pollLoop env setLoadingMessage fuel k op s) = Pending ->
    In (loadingMessage
          (ui (fst (pollLoop env setLoadingMessage fuel k op s))))
       waitingLabels.
Proof.
  induction fuel as [|fuel IH]; intros k op s Hin Hp.
  - simpl in *. destruct (done op); simpl in *; [discriminate | exact Hin].
  - destruct (done op) eqn:Hd.
    + rewrite pollLoop_done in Hp by assumption. discriminate.
    + destruct (getVideosOperation env k op) as [e|op1] eqn:Hq.
      * rewrite (pollLoop_fail _ _ _ _ _ e) in Hp by assumption. discriminate.
      * rewrite (pollLoop_next _ _ _ _ _ op1) in * by assumption.
        apply IH; [|exact Hp]. simpl. auto.
Qed.

(** A loop that is out of fuel has had every query so far answered with an
    operation that is not done. *)
Lemma pollLoop_pending_PollsTo env onProgress fuel :
  forall k op s,
    snd (pollLoop env onProgress fuel k op s) = Pending ->
    exists op', PollsTo env fuel k op op' /\ done op' = false.
Proof.
  induction fuel as [|fuel IH]; intros k op s Hp.
  - simpl in Hp. destruct (done op) eqn:Hd; [discriminate|].
    exists op. split; [constructor | assumption].
  - destruct (done op) eqn:Hd.
    + rewrite pollLoop_done in Hp by assumption. discriminate.
    + destruct (getVideosOperation env k op) as [e|op1] eqn:Hq.
      * rewrite (pollLoop_fail _ _ _ _ _ e) in Hp by assumption. discriminate.
      * rewrite (pollLoop_next _ _ _ _ _ op1) in Hp by assumption.
        destruct (IH _ _ _ Hp) as (op' & Hpolls & Hd').
        exists op'. split; [econstructor; eassumption | assumption].
Qed.

(** X14.  While a submitted run waits in its poll loop (the request was
    accepted and every status query so far, [fuel] of them, was answered
    with an operation not yet done), the page is in the loading state with
    no video and no error, the loading message is one of the two waiting
    labels, and no control accepts an action: the inputs and the submit
    button are disabled, the reset buttons and the key selector are not
    rendered.  So no second run can be started from the page.  The model's
    [Pending] is this wait and no other. *)
Theorem loop_wait_page (env : Env) (fuel : nat) (s : Sys) (f : File) :
  imageFile (ui s) = Some f ->
  truthy (script (ui s)) = true ->
  apiKeySelected (ui s) = Some true ->
  snd (handleSubmit env fuel s) = Pending ->
  let st := ui (fst (handleSubmit env fuel s)) in
  (exists op0 op,
      Submitted env (script (ui s)) f (aspectRatio (ui s)) op0
      /\ PollsTo env fuel 0 op0 op
      /\ done op = false)
  /\ generationState st = gs_loading
  /\ videoUrl st = None
  /\ error st = None
  /\ In (loadingMessage st) waitingLabels
  /\ submitDisabled st = true
  /\ isFormDisabled st = true
  /\ forall a, enabled a st = false.
Proof.
  intros Hfile Hscript Hkey Hp st.
  assert (Hwait : (exists op0 op,
                      Submitted env (script (ui s)) f (aspectRatio (ui s)) op0
                      /\ PollsTo env fuel 0 op0 op
                      /\ done op = false)
                  /\ In (loadingMessage st) waitingLabels).
  { subst st.
    destruct (generateVideoFromImage env setLoadingMessage fuel
                (script (ui s)) f (aspectRatio (ui s)) (entered s))
      as [s2 out] eqn:Hrun.
    destruct out as [url | e |].
    - rewrite (handleSubmit_returned env fuel s f Hfile Hscript Hkey s2 url
                 Hrun) in Hp. discriminate.
    - rewrite (handleSubmit_threw env fuel s f Hfile Hscript Hkey s2 e Hrun)
        in Hp. discriminate.
    - rewrite (handleSubmit_pending env fuel s f Hfile Hscript Hkey s2 Hrun).
      simpl. revert Hrun. unfold generateVideoFromImage.
      destruct (data (fileToGenerativePart f)) as [[|c bytes]|] eqn:Hdata;
        try discriminate.
      change (mimeType (fileToGenerativePart f)) with (file_type f).
      cbv zeta. unfold bind at 1 2 3 4. simpl.
      destruct (generateVideos env _) as [e|op0] eqn:Hgen; simpl;
        [discriminate|].
      unfold bind at 1 2. simpl.
      match goal with
      | |- context [pollLoop env setLoadingMessage fuel 0 op0 ?s1] =>
          pose proof (pollLoop_pending_label env fuel 0 op0 s1) as Hl;
          pose proof (pollLoop_pending_PollsTo env setLoadingMessage fuel 0
                        op0 s1) as Hq;
          destruct (pollLoop env setLoadingMessage fuel 0 op0 s1)
            as [s3 [op | e |]] eqn:Hloop
      end.
      + intro Hrun.
        pose proof (deliver_settles env setLoadingMessage op s3) as Hs.
        rewrite Hrun in Hs. simpl in Hs. congruence.
      + discriminate.
      + intro Hrun. inversion Hrun; subst s2. split.
        * destruct (Hq eq_refl) as (op & Hpolls & Hd).
          exists op0, op. split; [|split; assumption].
          exists (String c bytes). repeat split; assumption.
        * apply Hl; [simpl; auto | reflexivity]. }
  destruct Hwait as (Hloop & Hlabel).
  destruct (handleSubmit_page env fuel s f Hfile Hscript Hkey)
    as [(Hr & _) | [(Hr & _) | (_ & E)]]; [congruence | congruence |].
  fold st in E. fold st in Hlabel.
  assert (Hg : generationState st = gs_loading)
    by (apply (f_equal generationState) in E; exact E).
  assert (Hk : apiKeySelected st = Some true)
    by (apply (f_equal apiKeySelected) in E; simpl in E; congruence).
  assert (Hgen : isGenerating st = true)
    by (unfold isGenerating; rewrite Hg; reflexivity).
  split; [exact Hloop|].
  split; [exact Hg|].
  split; [apply (f_equal videoUrl) in E; exact E|].
  split; [apply (f_equal error) in E; exact E|].
  split; [exact Hlabel|].
  split; [unfold submitDisabled; rewrite Hgen; apply orb_true_r|].
  split; [unfold isFormDisabled; rewrite Hgen; reflexivity|].
  intro a. now apply busy_page_disabled.
Qed.

Lemma loop_wait_page_witness :
  let r := handleSubmit (slow 5) 3 (start ready) in
  snd r = Pending
  /\ (exists op0 op,
         Submitted (slow 5) (script ready) jpeg ar_16_9 op0
         /\ PollsTo (slow 5) 3 0 op0 op
         /\ done op = false)
  /\ generationState (ui (fst r)) = gs_loading
  /\ loadingMessage (ui (fst r)) = "Still processing... checking status."
  /\ forall a, enabled a (ui (fst r)) = false.
Proof.
  pose proof (loop_wait_page (slow 5) 3 (start ready) jpeg
                eq_refl eq_refl eq_refl eq_refl)
    as (W & G & _ & _ & _ & _ & _ & A).
  split; [reflexivity|]. split; [exact W|]. split; [exact G|].
  split; [reflexivity | exact A].
Defined.

(* ===================================================================== *)
(** * The key gate and a whole visit of the page *)

(** X15.  [checkApiKey] never throws and always decides the credential
    flag: it is the provider's answer, and [false] when the provider's check
    rejects.  The page is idle with the form rendered when the flag is
    [true], and in the key-selection state with the selector rendered
    otherwise; exactly one of the two is rendered. *)
Theorem checkApiKey_decides (studio : Aistudio) (s : Sys) :
  let hasKey := match hasSelectedApiKey studio with
                | inr b => b
                | inl _ => false
                end in
  let st := ui (fst (checkApiKey studio s)) in
  snd (checkApiKey studio s) = Returned tt
  /\ apiKeySelected st = Some hasKey
  /\ generationState st = (if hasKey then gs_idle else gs_selecting_key)
  /\ formRendered st = hasKey
  /\ selectorRendered st = negb hasKey
  /\ setGenerationState gs_idle (setApiKeySelected None st)
     = setGenerationState gs_idle (setApiKeySelected None (ui s)).
Proof.
  unfold checkApiKey.
  destruct (hasSelectedApiKey studio) as [e | [|]]; simpl; repeat split.
Qed.

Lemma submitClickable_guard (st : AppState) :
  submitClickable st = true ->
  (exists f, imageFile st = Some f)
  /\ truthy (script st) = true
  /\ apiKeySelected st = Some true
  /\ isGenerating st = false.
Proof.
  unfold submitClickable, submitDisabled, formRendered. intro H.
  apply andb_true_iff in H as [Hk Hd]. apply negb_true_iff in Hd.
  apply orb_false_iff in Hd as [Hd Hg]. apply orb_false_iff in Hd as [Hi Hs].
  apply negb_false_iff in Hi, Hs.
  repeat split; auto.
  - destruct (imageFile st) as [f|]; [eauto | discriminate].
  - destruct (apiKeySelected st) as [[|]|]; try discriminate; reflexivity.
Qed.

Lemma PageInvariant_mount (studio : Aistudio) :
  PageInvariant (ui (fst (checkApiKey studio (start initialState)))).
Proof.
  unfold checkApiKey, PageInvariant.
  destruct (hasSelectedApiKey studio) as [e | [|]]; simpl;
    repeat split; try discriminate; try congruence; auto.
Qed.

Lemma PageInvariant_perform (a : Action) (s : Sys) :
  PageInvariant (ui s) -> PageInvariant (ui (perform a s)).
Proof.
  intros Inv. unfold perform.
  destruct (enabled a (ui s)) eqn:Hen; [|exact Inv].
  destruct Inv as (Hnone & Hsel & Hpoll & Hvid).
  destruct a as [studio | file | v | v | env fuel | | studio]; simpl in Hen.
  - discriminate.
  - destruct file as [f|]; exact (conj Hnone (conj Hsel (conj Hpoll Hvid))).
  - exact (conj Hnone (conj Hsel (conj Hpoll Hvid))).
  - exact (conj Hnone (conj Hsel (conj Hpoll Hvid))).
  - apply submitClickable_guard in Hen as ((f & Hfile) & Hscript & Hkey & _).
    unfold act.
    destruct (handleSubmit_page env fuel s f Hfile Hscript Hkey)
      as [(_ & url & E) | [(_ & e & E) | (_ & E)]].
    + rewrite E. unfold PageInvariant, fulfilled. simpl. rewrite Hkey.
      repeat split; try discriminate; try congruence; auto.
    + rewrite E. unfold PageInvariant, rejected. simpl. rewrite Hkey.
      destruct (is_API_KEY_ERROR e);
        repeat split; try discriminate; try congruence; auto.
    + pose proof (f_equal generationState E) as Eg.
      pose proof (f_equal videoUrl E) as Ev.
      pose proof (f_equal apiKeySelected E) as Ek.
      simpl in Eg, Ev, Ek. unfold PageInvariant.
      rewrite Eg, Ev, Ek, Hkey.
      repeat split; try discriminate; try congruence; auto.
  - unfold PageInvariant. simpl.
    destruct (apiKeySelected (ui s)) as [[|]|]; simpl;
      repeat split; try discriminate; try congruence; auto.
  - unfold selectorRendered in Hen.
    destruct (apiKeySelected (ui s)) as [[|]|] eqn:Hk; try discriminate.
    assert (Hst : generationState (ui s) = gs_selecting_key)
      by (apply Hsel; reflexivity).
    assert (Hv : videoUrl (ui s) = None).
    { destruct (videoUrl (ui s)) eqn:Hvu; [|reflexivity].
      assert (generationState (ui s) = gs_success)
        by (apply Hvid; discriminate).
      congruence. }
    unfold act, handleSelectKey, PageInvariant.
    destruct (openSelectKey studio) as [e|u]; simpl.
    + rewrite Hk, Hst, Hv.
      repeat split; try discriminate; try congruence; auto.
    + rewrite Hv. repeat split; try discriminate; try congruence; auto.
Qed.

Lemma PageInvariant_session (studio : Aistudio) (actions : list Action) :
  PageInvariant (ui (session studio actions)).
Proof.
  unfold session.
  generalize (PageInvariant_mount studio).
  generalize (fst (checkApiKey studio (start initialState))).
  induction actions as [|a actions IH]; intros s Inv; [exact Inv|].
  simpl. apply IH. now apply PageInvariant_perform.
Qed.

(** X16.  On the first render, before the mount check has settled, the
    credential flag is undecided ([null]), the page is idle, and neither the
    key selector nor the form is rendered, so no control accepts an action.
    Once the check has settled, at every later moment of the visit the flag
    is decided, the page is in the key-selection state exactly when the flag
    is [false], and exactly one of the key selector and the form is
    rendered. *)
Theorem key_state_matches_flag (studio : Aistudio) (actions : list Action) :
  (apiKeySelected initialState = None
   /\ generationState initialState = gs_idle
   /\ selectorRendered initialState = false
   /\ formRendered initialState = false
   /\ forall a, enabled a initialState = false)
  /\ let st := ui (session studio actions) in
     apiKeySelected st <> None
     /\ (generationState st = gs_selecting_key
         <-> apiKeySelected st = Some false)
     /\ selectorRendered st = negb (formRendered st)
     /\ (selectorRendered st = true <-> generationState st = gs_selecting_key).
Proof.
  split.
  { repeat split. intros [ | | | | | | ]; reflexivity. }
  intro st. destruct (PageInvariant_session studio actions)
    as (Hnone & Hsel & _ & _).
  fold st in Hnone, Hsel.
  split; [exact Hnone|]. split; [exact Hsel|].
  unfold selectorRendered, formRendered.
  destruct (apiKeySelected st) as [[|]|]; [| |congruence]; simpl.
  - split; [reflexivity|]. rewrite Hsel. split; discriminate.
  - split; [reflexivity|]. rewrite Hsel. split; reflexivity.
Qed.

(** X17.  The [polling] state is unreachable: no moment of any visit shows
    it, whatever the user does and whatever the services answer. *)
Theorem polling_unreachable (studio : Aistudio) (actions : list Action) :
  generationState (ui (session studio actions)) <> gs_polling
  /\ isGenerating (ui (session studio actions))
     = GenerationState_eqb (generationState (ui (session studio actions)))
         gs_loading.
Proof.
  destruct (PageInvariant_session studio actions) as (_ & _ & Hpoll & _).
  split; [exact Hpoll|]. unfold isGenerating.
  destruct (generationState (ui (session studio actions)));
    try reflexivity. congruence.
Qed.

(** X18.  At every moment of a visit a video URL is held exactly when the
    page is in the success state: a video of an earlier run is never left
    behind in another state. *)
Theorem video_iff_success (studio : Aistudio) (actions : list Action) :
  videoUrl (ui (session studio actions)) <> None
  <-> generationState (ui (session studio actions)) = gs_success.
Proof.
  destruct (PageInvariant_session studio actions) as (_ & _ & _ & Hvid).
  exact Hvid.
Qed.

(** X19.  At most one run at a time: while the page of a visit is
    generating, every action the user attempts does nothing, so the rest of
    the visit leaves the page as it is. *)
Theorem one_run_at_a_time (studio : Aistudio) (actions more : list Action) :
  isGenerating (ui (session studio actions)) = true ->
  (forall a, perform a (session studio actions) = session studio actions)
  /\ session studio (actions ++ more) = session studio actions.
Proof.
  intro Hg.
  destruct (PageInvariant_session studio actions) as (Hnone & Hsel & _ & _).
  assert (Hk : apiKeySelected (ui (session studio actions)) = Some true).
  { destruct (apiKeySelected (ui (session studio actions))) as [[|]|] eqn:Hk;
      [reflexivity | | congruence].
    assert (Hst : generationState (ui (session studio actions))
                  = gs_selecting_key) by (apply Hsel; reflexivity).
    unfold isGenerating in Hg. rewrite Hst in Hg. discriminate. }
  assert (Hstuck : forall a,
             perform a (session studio actions) = session studio actions).
  { intro a. unfold perform.
    rewrite (busy_page_disabled _ a Hg Hk). reflexivity. }
  split; [exact Hstuck|].
  unfold session in *. rewrite fold_left_app.
  induction more as [|a more IH]; [reflexivity|].
  simpl. rewrite Hstuck. exact IH.
Qed.

Lemma one_run_at_a_time_witness :
  let visit := [ActImageChange (Some jpeg); ActSetScript "A beach at sunset.";
                ActSubmit (slow 5) 3] in
  isGenerating (ui (session studio_with_key visit)) = true
  /\ session studio_with_key
       (visit ++ [ActSubmit (scripted (inr op_finished) resp_ok) 2; ActReset])
     = session studio_with_key visit.
Proof.
  split; [reflexivity|].
  exact (proj2 (one_run_at_a_time studio_with_key
                  [ActImageChange (Some jpeg);
                   ActSetScript "A beach at sunset."; ActSubmit (slow 5) 3]
                  [ActSubmit (scripted (inr op_finished) resp_ok) 2; ActReset]
                  eq_refl)).
Defined.

(** X20.  After a run that ended in the key-selection state, the key
    selector is rendered and the form is not; once the key dialog resolves,
    the form is back with the same image, script and aspect ratio, and the
    submit button can be activated again without entering anything. *)
Theorem resubmit_after_key_selection (env : Env) (fuel : nat) (s : Sys)
    (studio : Aistudio) (u : unit) :
  submitClickable (ui s) = true ->
  generationState (ui (fst (handleSubmit env fuel s))) = gs_selecting_key ->
  openSelectKey studio = inr u ->
  let s1 := fst (handleSubmit env fuel s) in
  let s2 := fst (handleSelectKey studio s1) in
  selectorRendered (ui s1) = true
  /\ formRendered (ui s1) = false
  /\ imageFile (ui s2) = imageFile (ui s)
  /\ script (ui s2) = script (ui s)
  /\ aspectRatio (ui s2) = aspectRatio (ui s)
  /\ generationState (ui s2) = gs_idle
  /\ videoUrl (ui s2) = None
  /\ submitClickable (ui s2) = true.
Proof.
  intros Hclick Hst Hopen s1 s2.
  pose proof (submitClickable_guard _ Hclick)
    as ((f & Hfile) & Hscript & Hkey & _).
  assert (E : ui s1 = rejected (Error "API_KEY_ERROR") (ui s)
              \/ exists e, is_API_KEY_ERROR e = true
                           /\ ui s1 = rejected e (ui s)).
  { subst s1.
    destruct (handleSubmit_page env fuel s f Hfile Hscript Hkey)
      as [(_ & url & E) | [(_ & e & E) | (_ & E)]].
    - rewrite E in Hst. discriminate.
    - right. exists e. split; [|exact E]. rewrite E in Hst.
      unfold rejected in Hst. simpl in Hst.
      destruct (is_API_KEY_ERROR e); [reflexivity | discriminate].
    - apply (f_equal generationState) in E. simpl in E. congruence. }
  assert (E' : exists e, is_API_KEY_ERROR e = true
                         /\ ui s1 = rejected e (ui s))
    by (destruct E as [E | E]; [exists (Error "API_KEY_ERROR"); auto | exact E]).
  destruct E' as (e & He & Eu).
  subst s2. unfold handleSelectKey. rewrite Hopen.
  unfold bind, emit, onKeySelected, enter, bind, emit, update. simpl.
  rewrite Eu. unfold rejected, selectorRendered, formRendered, submitClickable,
    submitDisabled, isGenerating. simpl. rewrite He, Hfile, Hscript. simpl.
  repeat split.
Qed.

Lemma resubmit_after_key_selection_witness :
  let s1 := fst (handleSubmit env_not_found 2 (start ready)) in
  let s2 := fst (handleSelectKey studio_with_key s1) in
  generationState (ui s1) = gs_selecting_key
  /\ selectorRendered (ui s1) = true
  /\ imageFile (ui s2) = Some jpeg
  /\ submitClickable (ui s2) = true.
Proof.
  pose proof (resubmit_after_key_selection env_not_found 2 (start ready)
                studio_with_key tt eq_refl eq_refl eq_refl)
    as (S1 & _ & I & _ & _ & _ & _ & C).
  split; [reflexivity|]. split; [exact S1|]. split; [exact I | exact C].
Defined.

(* ===================================================================== *)
(** * More on the loop, the image input and the reset buttons *)

Lemma queriesOf_app (l1 l2 : list Event) :
  queriesOf (l1 ++ l2) = (queriesOf l1 ++ queriesOf l2)%list.
Proof.
  induction l1 as [|ev l1 IH]; [reflexivity|].
  destruct ev; simpl; rewrite IH; reflexivity.
Qed.

Lemma slow_run (n : nat) (onProgress : string -> AppState -> AppState) :
  forall m k s, k + m = n ->
    exists s' l,
      pollLoop (slow n) onProgress (S m) k op_running s
      = (s', Returned op_finished)
      /\ log s' = (log s ++ l)%list
      /\ length (queriesOf l) = S m.
Proof.
  induction m as [|m IH]; intros k s Hk.
  - assert (Hq : getVideosOperation (slow n) k op_running = inr op_finished).
    { simpl. destruct (Nat.ltb_spec k n); [lia | reflexivity]. }
    rewrite (pollLoop_next _ _ _ _ _ op_finished) by (reflexivity || exact Hq).
    rewrite pollLoop_done by reflexivity.
    eexists _, _. split; [reflexivity|]. split; reflexivity.
  - assert (Hq : getVideosOperation (slow n) k op_running = inr op_running).
    { simpl. destruct (Nat.ltb_spec k n); [reflexivity | lia]. }
    rewrite (pollLoop_next _ _ _ _ _ op_running) by (reflexivity || exact Hq).
    destruct (IH (S k) (afterQuery onProgress op_running s) ltac:(lia))
      as (s' & l & E & El & Hl).
    exists s', ([EvSetTimeout 10000;
                 EvProgress "Still processing... checking status.";
                 EvGetVideosOperation op_running] ++ l)%list.
    split; [exact E|]. split.
    + rewrite El. simpl. rewrite <- app_assoc. reflexivity.
    + simpl. rewrite Hl. reflexivity.
Qed.

(** X21.  The loop has no cap on its iterations: for every [n] there is a
    service (it answers "running" [n] times, then "done") for which the loop
    is still waiting after [n] iterations and returns the finished operation
    after exactly [n + 1] status queries. *)
Theorem pollLoop_unbounded (n : nat) (u : AppState) :
  (forall fuel, fuel <= n ->
     snd (pollLoop (slow n) setLoadingMessage fuel 0 op_running (start u))
     = Pending)
  /\ snd (pollLoop (slow n) setLoadingMessage (S n) 0 op_running (start u))
     = Returned op_finished
  /\ length (queriesOf
               (log (fst (pollLoop (slow n) setLoadingMessage (S n) 0
                            op_running (start u)))))
     = S n.
Proof.
  split; [intros fuel H; now apply pollLoop_no_cap|].
  destruct (slow_run n setLoadingMessage n 0 (start u) eq_refl)
    as (s' & l & E & El & Hl).
  rewrite E. simpl in *. rewrite El. split; [reflexivity | exact Hl].
Qed.

(** X22.  Choosing an image sets the file and its preview and clears the
    error message, and changes no other field of the state and nothing in
    the log; cancelling the file dialog changes nothing at all.  In
    particular, on a page in the error state the state stays [error] while
    the message is gone, so the error panel and its "Try Again" button are
    no longer rendered. *)
Theorem handleImageChange_effect (file : option File) (s : Sys) :
  let s' := fst (handleImageChange file s) in
  snd (handleImageChange file s) = Returned tt
  /\ log s' = log s
  /\ script (ui s') = script (ui s)
  /\ aspectRatio (ui s') = aspectRatio (ui s)
  /\ generationState (ui s') = generationState (ui s)
  /\ videoUrl (ui s') = videoUrl (ui s)
  /\ loadingMessage (ui s') = loadingMessage (ui s)
  /\ apiKeySelected (ui s') = apiKeySelected (ui s)
  /\ match file with
     | None => s' = s
     | Some f =>
         ui s'
         = {| imageFile := Some f;
              imagePreview := file_dataURL f;
              script := script (ui s);
              aspectRatio := aspectRatio (ui s);
              generationState := generationState (ui s);
              videoUrl := videoUrl (ui s);
              error := None;
              loadingMessage := loadingMessage (ui s);
              apiKeySelected := apiKeySelected (ui s) |}
         /\ (generationState (ui s) = gs_error -> resetRendered (ui s') = false)
     end.
Proof.
  destruct file as [f|]; simpl; repeat split.
  intro He. unfold resetRendered, formRendered. simpl. rewrite He. simpl.
  destruct (truthy_flag (apiKeySelected (ui s))); reflexivity.
Qed.

Lemma resetState_from_page_witness :
  resetRendered shown = true
  /\ generationState (ui (fst (resetState (start shown)))) = gs_idle.
Proof.
  split; [reflexivity|].
  exact (resetState_from_page (start shown) eq_refl).
Defined.

Lemma pollLoop_unbounded_witness :
  snd (pollLoop (slow 3) setLoadingMessage 3 0 op_running (start ready))
  = Pending
  /\ snd (pollLoop (slow 3) setLoadingMessage 4 0 op_running (start ready))
     = Returned op_finished
  /\ length (queriesOf
               (log (fst (pollLoop (slow 3) setLoadingMessage 4 0 op_running
                            (start ready)))))
     = 4.
Proof.
  pose proof (pollLoop_unbounded 3 ready) as (P & R & Q).
  split; [apply (P 3); lia|]. split; [exact R | exact Q].
Defined.
